(** * NIFTY candle loader: Yahoo Finance -> replay_candles

    A shallow embedding of [scripts/load_nifty_candles.py] and the
    properties of its fetch -> load -> verify pipeline.

    The script talks to two outside parties: the market-data provider
    (one [yf.download] call) and a PostgreSQL server (connections, one
    upsert statement, one aggregate query).  Both are modelled as an
    explicit environment: the provider by the dataframe it answers with,
    the server by the contents of the [replay_candles] table, by what its
    TIMESTAMP column keeps of a reading, and by the two things the script
    itself treats as able to go wrong there, [psycopg2.connect] raising and
    [cur.execute] raising on a row.  A statement the server rejects aborts
    the open transaction: the statements that follow in the batch are
    rejected too, and the commit that ends the batch rolls it back. *)

From Stdlib Require Import List ZArith QArith String Bool Arith Lia FinFun.
Import ListNotations.

Local Open Scope string_scope.
Local Open Scope list_scope.
Local Open Scope nat_scope.

(* ------------------------------------------------------------------ *)
(** * Configuration (lines 26-35) *)

Definition SYMBOL    : string := "NIFTY50".
Definition YF_TICKER : string := "^NSEI".
Definition INTERVAL  : string := "5m".
Definition DAYS_BACK : Z      := 59.
Definition BATCH     : nat    := 500.

(* ------------------------------------------------------------------ *)
(** * Control outcomes

    A call either returns, leaves the interpreter through [sys.exit], or
    lets an exception escape.  An exception that reaches the top of the
    script makes the interpreter print a traceback and end with status 1. *)

Inductive outcome (A : Type) : Type :=
| Return   (a : A)
| SysExit  (code : Z)
| Uncaught (exn : string).

Arguments Return {A} a.
Arguments SysExit {A} code.
Arguments Uncaught {A} exn.

Definition obind {A B} (m : outcome A) (k : A -> outcome B) : outcome B :=
  match m with
  | Return a => k a
  | SysExit c => SysExit c
  | Uncaught e => Uncaught e
  end.

Notation "x <- m ;; k" := (obind m (fun x => k))
  (at level 61, m at next level, right associativity).

Definition exit_status {A} (o : outcome A) : Z :=
  match o with
  | Return _ => 0%Z
  | SysExit c => c
  | Uncaught _ => 1%Z
  end.

(** A column operation applied cell by cell; the first cell that raises
    ends it. *)
Fixpoint traverse {A B} (f : A -> outcome B) (l : list A) : outcome (list B) :=
  match l with
  | [] => Return []
  | a :: l' => b <- f a ;; l'' <- traverse f l' ;; Return (b :: l'')
  end.

(* ------------------------------------------------------------------ *)
(** * The pandas side: cells, time zones, frames *)

Module Pandas.

(** A float64 cell: NaN, an infinity, or a finite number.  No property
    below looks inside a finite number except the integer cast, so an exact
    rational stands for it. *)
Inductive float64 : Type :=
| NaN
| Inf (negative : bool)
| Num (q : Q).

Definition isna (x : float64) : bool :=
  match x with NaN => true | _ => false end.

Definition notna (x : float64) : bool := negb (isna x).

Definition isinf (x : float64) : bool :=
  match x with Inf _ => true | _ => false end.

(** [Series.fillna(value)] on one cell. *)
Definition fillna (value : float64) (x : float64) : float64 :=
  match x with NaN => value | _ => x end.

Definition INT64_MIN : Z := (- 2 ^ 63)%Z.
Definition INT64_MAX : Z := (2 ^ 63 - 1)%Z.

(** [astype(int)] on one cell.  A NaN or infinite cell makes pandas raise.
    A finite cell is cut towards zero; when the result does not fit in 64
    bits the conversion instruction answers with the least int64. *)
Definition astype_int (x : float64) : outcome Z :=
  match x with
  | NaN | Inf _ => Uncaught "IntCastingNaNError"
  | Num q =>
      let t := Z.quot (Qnum q) (Zpos (Qden q)) in
      Return (if (INT64_MIN <=? t)%Z && (t <=? INT64_MAX)%Z then t else INT64_MIN)
  end.

(** A time zone of the tz database.  Times are nanoseconds since the epoch,
    as in datetime64[ns].  [utcoffset i] is the offset at the instant [i];
    [utc_of_local w] is the instant at which the zone's wall clock reads
    [w], and is [None] where pandas raises instead: the reading is
    ambiguous, does not exist, or its instant is out of bounds.  The two
    laws say that the answer is an instant at which the wall clock does
    read [w], and that later readings are later instants. *)
Record tzinfo : Type := {
  tzname       : string;
  utcoffset    : Z -> Z;
  utc_of_local : Z -> option Z;
  utc_of_local_wall :
    forall w i, utc_of_local w = Some i -> (i + utcoffset i = w)%Z;
  utc_of_local_incr :
    forall w1 w2 i1 i2,
      (w1 < w2)%Z -> utc_of_local w1 = Some i1 -> utc_of_local w2 = Some i2 ->
      (i1 < i2)%Z
}.

(** One row of the six columns the script keeps (line 75).  The volume
    column changes dtype at line 90, hence the parameter. *)
Record Row (V : Type) : Type := {
  candle_time : Z;
  open  : float64;
  high  : float64;
  low   : float64;
  close : float64;
  volume : V
}.

Arguments candle_time {V} _.
Arguments open {V} _.
Arguments high {V} _.
Arguments low {V} _.
Arguments close {V} _.
Arguments volume {V} _.

(** A frame: the rows in index order, and the [tz] of the [candle_time]
    column ([None] for a naive column).  A tz-aware column stores UTC
    instants, a naive one stores wall-clock readings. *)
Record DataFrame (V : Type) : Type := {
  dt_tz : option tzinfo;
  rows  : list (Row V)
}.

Arguments dt_tz {V} _.
Arguments rows {V} _.

Definition empty {V} (df : DataFrame V) : bool :=
  match rows df with [] => true | _ :: _ => false end.

Definition len {V} (df : DataFrame V) : nat := List.length (rows df).

Definition set_time {V} (t : Z) (r : Row V) : Row V :=
  {| candle_time := t;
     open := open r; high := high r; low := low r; close := close r;
     volume := volume r |}.

Definition set_volume {V W} (v : W) (r : Row V) : Row W :=
  {| candle_time := candle_time r;
     open := open r; high := high r; low := low r; close := close r;
     volume := v |}.

(** [df.dropna(subset=["open","high","low","close"])] *)
Definition ohlc_notna {V} (r : Row V) : bool :=
  notna (open r) && notna (high r) && notna (low r) && notna (close r).

Definition dropna_ohlc {V} (df : DataFrame V) : DataFrame V :=
  {| dt_tz := dt_tz df; rows := filter ohlc_notna (rows df) |}.

(** One cell of [tz_localize(zone)] on a naive column. *)
Definition localize_row {V} (z : tzinfo) (r : Row V) : outcome (Row V) :=
  match utc_of_local z (candle_time r) with
  | Some i => Return (set_time i r)
  | None => Uncaught "tz_localize: ambiguous, nonexistent or out of bounds"
  end.

(** [Series.dt.tz_localize(tz)]: attaches a zone to a naive column, or with
    [None] strips the zone of an aware one, leaving that zone's wall clock. *)
Definition tz_localize {V} (tz : option tzinfo) (df : DataFrame V)
  : outcome (DataFrame V) :=
  match tz, dt_tz df with
  | None, None => Return df
  | None, Some z =>
      Return {| dt_tz := None;
                rows := map (fun r => set_time (candle_time r
                                                + utcoffset z (candle_time r))%Z r)
                            (rows df) |}
  | Some z, None =>
      l <- traverse (localize_row z) (rows df) ;;
      Return {| dt_tz := Some z; rows := l |}
  | Some _, Some _ => Uncaught "TypeError: Already tz-aware"
  end.

(** [Series.dt.tz_convert(tz)]: same instants, another zone. *)
Definition tz_convert {V} (tz : tzinfo) (df : DataFrame V)
  : outcome (DataFrame V) :=
  match dt_tz df with
  | None => Uncaught "TypeError: Cannot convert tz-naive timestamps"
  | Some _ => Return {| dt_tz := Some tz; rows := rows df |}
  end.

(** [df["volume"].fillna(0)] *)
Definition volume_fillna0 (df : DataFrame float64) : DataFrame float64 :=
  {| dt_tz := dt_tz df;
     rows := map (fun r => set_volume (fillna (Num 0) (volume r)) r) (rows df) |}.

(** [df["volume"].astype(int)] *)
Definition astype_int_row (r : Row float64) : outcome (Row Z) :=
  v <- astype_int (volume r) ;; Return (set_volume v r).

Definition volume_astype_int (df : DataFrame float64) : outcome (DataFrame Z) :=
  l <- traverse astype_int_row (rows df) ;;
  Return {| dt_tz := dt_tz df; rows := l |}.

End Pandas.

Import Pandas.

(** UTC, the target of lines 82 and 84. *)
Definition UTC : tzinfo :=
  {| tzname := "UTC";
     utcoffset := fun _ => 0%Z;
     utc_of_local := fun w => Some w;
     utc_of_local_wall :=
       ltac:(intros w i H; injection H as <-; apply Z.add_0_r);
     utc_of_local_incr :=
       ltac:(intros w1 w2 i1 i2 H H1 H2;
             injection H1 as <-; injection H2 as <-; exact H) |}.

(* ------------------------------------------------------------------ *)
(** * The database side: the replay_candles table *)

Module Db.

(** A stored row of [replay_candles(symbol, candle_time, open, high, low,
    close, volume)].  The TIMESTAMP column counts microseconds. *)
Record DbRow : Type := {
  symbol  : string;
  ctime   : Z;
  o_price : float64;
  h_price : float64;
  l_price : float64;
  c_price : float64;
  vol     : Z
}.

(** The table as the server holds it: rows in insertion order.  Nothing in
    the type keeps keys apart; only the conflict test of [upsert] does. *)
Definition Table : Type := list DbRow.

Definition key (r : DbRow) : string * Z := (symbol r, ctime r).

Definition key_eqb (k1 k2 : string * Z) : bool :=
  String.eqb (fst k1) (fst k2) && Z.eqb (snd k1) (snd k2).

Definition conflicts (t : Table) (r : DbRow) : bool :=
  existsb (fun x => key_eqb (key x) (key r)) t.

(** [INSERT INTO replay_candles (...) VALUES (...)
     ON CONFLICT (symbol, candle_time) DO NOTHING]
    gives the table afterwards and [cur.rowcount]. *)
Definition upsert (t : Table) (r : DbRow) : Table * nat :=
  if conflicts t r then (t, 0) else (t ++ [r], 1).

End Db.

Import Db.

(** What the loader and the verifier do that can be seen from outside. *)
Inductive event : Type :=
| EvConnect
| EvConnectFailed
| EvExecute (r : DbRow)
| EvWarn (candle_time : Z)
| EvCommit
| EvProgress (done total inserted skipped : nat)
| EvClose.

(* ------------------------------------------------------------------ *)
(** * State and results of the loader, the environment of a run *)

(** The loop state of load_to_db: the table as the open transaction sees
    it, the table as last committed, whether the transaction has been
    aborted by a rejected statement, how many statements the cursor has
    been given, the two counters, and what has been done so far. *)
Record Loader : Type := {
  view     : Table;
  durable  : Table;
  aborted  : bool;
  nexec    : nat;
  inserted : nat;
  skipped  : nat;
  log      : list event
}.

Record LoadResult : Type := {
  result   : outcome (nat * nat);
  db_after : Table;
  events   : list event
}.

(** What a run of the script meets: the provider's answer, whether the
    connect of load_to_db succeeds, which statements the server rejects,
    whether the connect of verify succeeds. *)
Record Env : Type := {
  yf_download       : DataFrame float64;
  load_connect_ok   : bool;
  execute_raises    : nat -> bool;
  verify_connect_ok : bool
}.

Record Run : Type := {
  status   : outcome unit;
  final_db : Table;
  trace    : list event
}.

(* ------------------------------------------------------------------ *)
(** * Samples

    A zone and a rounding to evaluate the script with, and a few frames,
    tables and environments. *)

Definition IST_OFFSET : Z := (19800 * 1000000000)%Z.

(** Asia/Kolkata as it has been since October 1945: five and a half hours
    ahead of UTC.  Good for readings of that era only. *)
Definition IST : tzinfo :=
  {| tzname := "Asia/Kolkata";
     utcoffset := fun _ => IST_OFFSET;
     utc_of_local := fun w => Some (w - IST_OFFSET)%Z;
     utc_of_local_wall :=
       ltac:(intros w i H; injection H as <-; lia);
     utc_of_local_incr :=
       ltac:(intros w1 w2 i1 i2 H H1 H2;
             injection H1 as <-; injection H2 as <-; lia) |}.

(** Nanoseconds to the nearest microsecond.  The samples only use it on
    whole microseconds, where every rounding agrees. *)
Definition nearest_us (t : Z) : Z := ((t + 500) / 1000)%Z.

(** A candle at [t] microseconds. *)
Definition candle (t : Z) : Row Z :=
  {| candle_time := (t * 1000)%Z;
     open := Num 1; high := Num 1; low := Num 1; close := Num 1;
     volume := 0%Z |}.

Definition candles (ts : list Z) : DataFrame Z :=
  {| dt_tz := None; rows := map candle ts |}.

Definition raw_candle (t : Z) : Row float64 :=
  {| candle_time := (t * 1000)%Z;
     open := Num 1; high := Num 1; low := Num 1; close := Num 1;
     volume := Num 0 |}.

(** The stored row of [candle t]. *)
Definition stored (t : Z) : DbRow :=
  {| symbol := SYMBOL; ctime := t;
     o_price := Num 1; h_price := Num 1; l_price := Num 1; c_price := Num 1;
     vol := 0%Z |}.

Definition never : nat -> bool := fun _ => false.
Definition always : nat -> bool := fun _ => true.
Definition second_raises : nat -> bool := fun k => Nat.eqb k 1.

(** A table that holds the candles of times 0 .. 9. *)
Definition table_10 : Table := map (fun n => stored (Z.of_nat n)) (seq 0 10).

(** A table that holds the candles of times 0 .. 8. *)
Definition table_9 : Table := map (fun n => stored (Z.of_nat n)) (seq 0 9).

(** Times 0 .. 499. *)
Definition frame_500 : DataFrame Z := candles (map Z.of_nat (seq 0 500)).

(** Times 0 .. 498 and then 10 once more: 500 rows. *)
Definition frame_with_repeat : DataFrame Z :=
  candles (map Z.of_nat (seq 0 499) ++ [10%Z]).

(** Times 0 .. 498 and then 5, which [table_10] holds, once more. *)
Definition frame_with_known_repeat : DataFrame Z :=
  candles (map Z.of_nat (seq 0 499) ++ [5%Z]).

(** 501 candles, the second of which the server rejects. *)
Definition frame_501 : DataFrame Z := candles (map Z.of_nat (seq 0 501)).

Definition frame_two_at_300 : DataFrame Z :=
  {| dt_tz := None;
     rows := [ candle 0; candle 300;
               {| candle_time := 300000; open := Num 5; high := Num 5;
                  low := Num 5; close := Num 5; volume := 9%Z |} ] |}.

Definition frame_with_gap : DataFrame float64 :=
  {| dt_tz := Some IST;
     rows := [ raw_candle 0;
               {| candle_time := 300000; open := Num 1; high := NaN;
                  low := Num 1; close := Num 1; volume := NaN |};
               raw_candle 600 ] |}.

Definition frame_descending : DataFrame float64 :=
  {| dt_tz := Some UTC; rows := [raw_candle 600; raw_candle 300] |}.

(** Naive readings 05:30:00 and 05:35:00 of 1 January 1970. *)
Definition frame_naive : DataFrame float64 :=
  {| dt_tz := None;
     rows := [raw_candle 19800000000; raw_candle 20100000000] |}.


(** One priced row whose volume is infinite. *)
Definition frame_inf_volume : DataFrame float64 :=
  {| dt_tz := Some UTC;
     rows := [ {| candle_time := 0; open := Num 1; high := Num 1;
                  low := Num 1; close := Num 1; volume := Inf false |} ] |}.

(** A row of another symbol, and a row of our symbol with other prices
    than [candle] gives. *)
Definition foreign_row : DbRow :=
  {| symbol := "BANKNIFTY"; ctime := 300;
     o_price := Num 9; h_price := Num 9; l_price := Num 9; c_price := Num 9;
     vol := 1%Z |}.

Definition older_row : DbRow :=
  {| symbol := SYMBOL; ctime := 300;
     o_price := Num 2; h_price := Num 3; l_price := Num 1; c_price := Num 2;
     vol := 40%Z |}.

Definition env_no_data : Env :=
  {| yf_download := {| dt_tz := Some IST; rows := [] |};
     load_connect_ok := true;
     execute_raises := never;
     verify_connect_ok := true |}.

Definition env_with_gap : Env :=
  {| yf_download := frame_with_gap;
     load_connect_ok := true;
     execute_raises := never;
     verify_connect_ok := true |}.


Definition env_verify_down : Env :=
  {| yf_download := frame_with_gap;
     load_connect_ok := true;
     execute_raises := never;
     verify_connect_ok := false |}.

Definition env_inf_volume : Env :=
  {| yf_download := frame_inf_volume;
     load_connect_ok := true;
     execute_raises := never;
     verify_connect_ok := true |}.

Definition env_naive : Env :=
  {| yf_download := frame_naive;
     load_connect_ok := true;
     execute_raises := never;
     verify_connect_ok := false |}.

Section Script.

(** What the TIMESTAMP column keeps of a reading in nanoseconds: a count of
    microseconds.  The server rounds; how it rounds is its own business. *)
Variable pg_timestamp : Z -> Z.

(** The zone the tz database gives for "Asia/Kolkata". *)
Variable kolkata : tzinfo.

(* ------------------------------------------------------------------ *)
(** * fetch_candles (lines 39-93)

    [download] is the provider's answer to the [yf.download] call, already
    seen through lines 57-75 (index reset, columns renamed and selected),
    which only relabel it. *)

Definition fetch_candles (download : DataFrame float64) : outcome (DataFrame Z) :=
  let df := download in
  if empty df then SysExit 1
  else
    let df := dropna_ohlc df in
    df <- match dt_tz df with
          | None => df' <- tz_localize (Some kolkata) df ;; tz_convert UTC df'
          | Some _ => tz_convert UTC df
          end ;;
    df <- tz_localize None df ;;
    volume_astype_int (volume_fillna0 df).

(* ------------------------------------------------------------------ *)
(** * load_to_db (lines 97-144) *)

(** The parameter tuple of line 127 as the server stores it: the module
    constant, the row's time as the TIMESTAMP column keeps it, [float] of
    the four prices, [int] of the volume. *)
Definition params (r : Row Z) : DbRow :=
  {| symbol := SYMBOL;
     ctime := pg_timestamp (candle_time r);
     o_price := open r; h_price := high r;
     l_price := low r;  c_price := close r;
     vol := volume r |}.

(** Lines 121-135, one row.  [raises k] tells whether the server rejects
    the [k]-th [cur.execute] of this run (counted from 0) for a reason of
    its own.  A rejected statement changes no row and aborts the open
    transaction, and in an aborted transaction every statement is
    rejected.  Either way the exception is caught at line 133. *)
Definition exec_row (raises : nat -> bool) (st : Loader) (r : Row Z) : Loader :=
  if aborted st || raises (nexec st) then
    {| view := view st; durable := durable st; aborted := true;
       nexec := S (nexec st);
       inserted := inserted st;
       skipped := S (skipped st);
       log := log st ++ [EvExecute (params r); EvWarn (candle_time r)] |}
  else
    let (t', rowcount) := upsert (view st) (params r) in
    if 0 <? rowcount then
      {| view := t'; durable := durable st; aborted := false;
         nexec := S (nexec st);
         inserted := S (inserted st);
         skipped := skipped st;
         log := log st ++ [EvExecute (params r)] |}
    else
      {| view := t'; durable := durable st; aborted := false;
         nexec := S (nexec st);
         inserted := inserted st;
         skipped := S (skipped st);
         log := log st ++ [EvExecute (params r)] |}.

(** [conn.commit()]: makes the transaction's rows durable, or, when the
    transaction was aborted, rolls it back; a new transaction starts. *)
Definition commit (st : Loader) : Loader :=
  {| view := if aborted st then durable st else view st;
     durable := if aborted st then durable st else view st;
     aborted := false;
     nexec := nexec st; inserted := inserted st; skipped := skipped st;
     log := log st ++ [EvCommit] |}.

(** Lines 138-140: the progress line. *)
Definition progress (done total : nat) (st : Loader) : Loader :=
  {| view := view st; durable := durable st; aborted := aborted st;
     nexec := nexec st; inserted := inserted st; skipped := skipped st;
     log := log st ++ [EvProgress done total (inserted st) (skipped st)] |}.

(** [range(start, stop, step)] for a positive step.  Each element is below
    [stop], so [stop] rounds are enough. *)
Fixpoint range_from (fuel start stop step : nat) : list nat :=
  match fuel with
  | 0 => []
  | S fuel' =>
      if start <? stop then start :: range_from fuel' (start + step) stop step
      else []
  end.

Definition range (start stop step : nat) : list nat :=
  range_from stop start stop step.

(** Lines 119-140: one turn of the outer loop. *)
Definition load_batch (raises : nat -> bool) (rows : list (Row Z))
           (st : Loader) (i : nat) : Loader :=
  let batch := firstn BATCH (skipn i rows) in
  let st := fold_left (exec_row raises) batch st in
  let st := commit st in
  let done := Nat.min (i + BATCH) (List.length rows) in
  progress done (List.length rows) st.

(** The loop state right after a successful connect (lines 110-113). *)
Definition start (db : Table) : Loader :=
  {| view := db; durable := db; aborted := false; nexec := 0;
     inserted := 0; skipped := 0; log := [EvConnect] |}.

(** [connect_ok] tells whether [psycopg2.connect] of line 100 succeeds;
    [db] is the table when the run starts. *)
Definition load_to_db (connect_ok : bool) (raises : nat -> bool)
           (df : DataFrame Z) (db : Table) : LoadResult :=
  if connect_ok then
    let st := start db in
    let rows := rows df in
    let st := fold_left (load_batch raises rows)
                        (range 0 (List.length rows) BATCH) st in
    {| result := Return (inserted st, skipped st);
       db_after := durable st;
       events := log st ++ [EvClose] |}
  else
    {| result := SysExit 1; db_after := db; events := [EvConnectFailed] |}.

(* ------------------------------------------------------------------ *)
(** * verify (lines 148-166) *)

Definition of_symbol (s : string) (r : DbRow) : bool := String.eqb (symbol r) s.

(** The aggregate query: one group for [SYMBOL], or no row at all.  The
    connection of line 149 is opened outside any [try]. *)
Definition verify (connect_ok : bool) (db : Table)
  : outcome (option (string * nat * Z * Z)) :=
  if connect_ok then
    let sel := filter (of_symbol SYMBOL) db in
    Return
      match sel with
      | [] => None
      | r :: rest =>
          Some (SYMBOL, List.length sel,
                fold_left Z.min (map ctime rest) (ctime r),
                fold_left Z.max (map ctime rest) (ctime r))
      end
  else Uncaught "psycopg2.OperationalError".

(* ------------------------------------------------------------------ *)
(** * The script body (lines 170-192) *)

Definition main (env : Env) (db : Table) : Run :=
  match fetch_candles (yf_download env) with
  | Return df =>
      let lr := load_to_db (load_connect_ok env) (execute_raises env) df db in
      match result lr with
      | Return _ =>
          match verify (verify_connect_ok env) (db_after lr) with
          | Return _ =>
              {| status := Return tt; final_db := db_after lr;
                 trace := events lr ++ [EvConnect; EvClose] |}
          | SysExit c =>
              {| status := SysExit c; final_db := db_after lr;
                 trace := events lr |}
          | Uncaught e =>
              {| status := Uncaught e; final_db := db_after lr;
                 trace := events lr ++ [EvConnectFailed] |}
          end
      | SysExit c =>
          {| status := SysExit c; final_db := db_after lr; trace := events lr |}
      | Uncaught e =>
          {| status := Uncaught e; final_db := db_after lr; trace := events lr |}
      end
  | SysExit c => {| status := SysExit c; final_db := db; trace := [] |}
  | Uncaught e => {| status := Uncaught e; final_db := db; trace := [] |}
  end.

(* ------------------------------------------------------------------ *)
(** * Vocabulary of the properties *)

(** The uniqueness invariant of the table. *)
Definition unique_keys (t : Table) : Prop := NoDup (map key t).

(** The tables that runs of the loader can produce from a fresh one. *)
Inductive reachable : Table -> Prop :=
| reach_fresh : reachable []
| reach_load  : forall connect_ok raises df t,
    reachable t ->
    reachable (db_after (load_to_db connect_ok raises df t)).

(** All four prices of a stored row are there. *)
Definition ohlc_present (r : DbRow) : bool :=
  notna (o_price r) && notna (h_price r) && notna (l_price r) && notna (c_price r).

(** Each element is at least the one before it. *)
Fixpoint ascending (l : list Z) : Prop :=
  match l with
  | [] => True
  | a :: tl =>
      match tl with
      | [] => True
      | b :: _ => (a <= b)%Z /\ ascending tl
      end
  end.

(** The instant a provider timestamp stands for: an aware column stores
    it; a naive column is read on the Asia/Kolkata wall clock, which may
    fail. *)
Definition provider_instant (tz : option tzinfo) (t : Z) : option Z :=
  match tz with
  | Some _ => Some t
  | None => utc_of_local kolkata t
  end.

(** What lines 89-90 make of a volume that is not infinite. *)
Definition int_volume (x : float64) : Z :=
  match x with
  | NaN | Inf _ => 0%Z
  | Num q =>
      let t := Z.quot (Qnum q) (Zpos (Qden q)) in
      if (INT64_MIN <=? t)%Z && (t <=? INT64_MAX)%Z then t else INT64_MIN
  end.

(** A returned row against the downloaded row it comes from: its time is
    the instant of the downloaded timestamp, the four prices are the same,
    the volume was not infinite, a missing volume has become 0 and a volume
    that is there has lost its fraction (or, too large for 64 bits, has
    become the least int64). *)
Definition fetched (tz : option tzinfo) (r : Row float64) (r' : Row Z) : Prop :=
  provider_instant tz (candle_time r) = Some (candle_time r') /\
  open r' = open r /\ high r' = high r /\ low r' = low r /\ close r' = close r /\
  isinf (volume r) = false /\
  volume r' = int_volume (volume r).

(** Lines 87-90 on a column that holds UTC instants. *)
Definition strip_and_cast (l : list (Row float64)) : outcome (list (Row Z)) :=
  traverse astype_int_row
    (map (fun r => set_volume (fillna (Num 0) (volume r)) r)
         (map (fun r => set_time (candle_time r + 0)%Z r) l)).

Definition is_execute (e : event) : bool :=
  match e with EvExecute _ => true | _ => false end.


Definition executes (l : list event) : list event := filter is_execute l.

Definition count_exec (l : list event) : nat := List.length (filter is_execute l).

(** For each commit of a log, how many statements came before it. *)
Fixpoint commit_marks (seen : nat) (l : list event) : list nat :=
  match l with
  | [] => []
  | EvExecute _ :: l' => commit_marks (S seen) l'
  | EvCommit :: l' => seen :: commit_marks seen l'
  | _ :: l' => commit_marks seen l'
  end.

(** The rows whose key the table already holds, and the others. *)
Definition present_in (t : Table) (r : Row Z) : bool := conflicts t (params r).

Definition absent_from (t : Table) (r : Row Z) : bool := negb (present_in t r).

Definition count_present (t : Table) (l : list (Row Z)) : nat :=
  List.length (filter (present_in t) l).

(** How many of the first [n] statements the server rejects for a reason
    of their own. *)
Definition count_raises (raises : nat -> bool) (n : nat) : nat :=
  List.length (filter raises (seq 0 n)).



(** The loop without its batching: every row in turn. *)
Definition run_rows (raises : nat -> bool) (l : list (Row Z)) (st : Loader) : Loader :=
  fold_left (exec_row raises) l st.

(** A state from which the next [m] statements meet no rejection: the
    transaction is not aborted and the server rejects none of them. *)
Definition quiet (raises : nat -> bool) (st : Loader) (m : nat) : Prop :=
  aborted st = false /\
  forall k, nexec st <= k < nexec st + m -> raises k = false.

(** What holds between two batches, before the one that starts at row
    [i] of [n]: no transaction is open, so the connection sees what is
    committed; the rows before [i] have been issued and counted. *)
Definition boundary (n i : nat) (st : Loader) : Prop :=
  aborted st = false /\ view st = durable st /\
  nexec st = Nat.min i n /\
  inserted st + skipped st = nexec st /\
  count_exec (log st) = nexec st.

(** The loop state when the outer loop of a connected run is over. *)
Definition final_state (raises : nat -> bool) (rws : list (Row Z)) (db : Table)
  : Loader :=
  fold_left (load_batch raises rws) (range 0 (List.length rws) BATCH) (start db).

(** The row count of the verifier's answer. *)
Definition candles_of (row : option (string * nat * Z * Z)) : nat :=
  match row with
  | None => 0
  | Some (_, n, _, _) => n
  end.

(** The stored row of a key, as a point query would find it. *)
Definition lookup (t : Table) (k : string * Z) : option DbRow :=
  find (fun x => key_eqb (key x) k) t.

(** The first row of a list of candles that is stored under a given
    time. *)
Definition first_at (u : Z) (l : list (Row Z)) : option (Row Z) :=
  find (fun r => (pg_timestamp (candle_time r) =? u)%Z) l.

(** A progress line that agrees with a run over [n] rows. *)
Definition progress_ok (n : nat) (e : event) : Prop :=
  match e with
  | EvProgress done total ins skp => total = n /\ done <= n /\ ins + skp = done
  | _ => True
  end.

(** Two loop states that agree on all but what is committed and logged. *)
Definition sim (a b : Loader) : Prop :=
  view a = view b /\ aborted a = aborted b /\ nexec a = nexec b /\
  inserted a = inserted b /\ skipped a = skipped b.

(* ------------------------------------------------------------------ *)
(** * Cell-by-cell operations *)

Lemma traverse_cons_Return {A B} (f : A -> outcome B) (a : A) (l : list A)
      (l' : list B) :
  traverse f (a :: l) = Return l' ->
  exists b l'', f a = Return b /\ traverse f l = Return l'' /\ l' = b :: l''.
Proof.
  cbn [traverse]. destruct (f a) as [b| |]; cbn [obind]; try discriminate.
  destruct (traverse f l) as [l''| |]; cbn [obind]; try discriminate.
  intros [= <-]. eauto.
Qed.

Lemma traverse_Return {A B} (f : A -> outcome B) (l : list A) :
  forall l', traverse f l = Return l' ->
             Forall2 (fun a b => f a = Return b) l l'.
Proof.
  induction l as [|a l IH]; intros l' H.
  - injection H as <-. constructor.
  - apply traverse_cons_Return in H. destruct H as (b & l'' & Hb & Hl & ->).
    constructor; auto.
Qed.

Lemma traverse_all_return {A B} (f : A -> outcome B) (l : list A) :
  (forall a, In a l -> exists b, f a = Return b) ->
  exists l', traverse f l = Return l'.
Proof.
  induction l as [|a l IH]; intro H; [exists []; reflexivity|].
  destruct (H a (or_introl eq_refl)) as (b & Hb).
  destruct IH as (l' & Hl); [intros x Hx; apply H; right; exact Hx|].
  exists (b :: l'). cbn [traverse]. rewrite Hb, Hl. reflexivity.
Qed.

Lemma traverse_no_exit {A B} (f : A -> outcome B) (l : list A) (c : Z) :
  (forall a c', f a <> SysExit c') -> traverse f l <> SysExit c.
Proof.
  intro H. induction l as [|a l IH]; [discriminate|].
  cbn [traverse]. destruct (f a) as [b| |] eqn:E; cbn [obind];
    [|elim (H a code E)|discriminate].
  destruct (traverse f l) as [l'| |]; cbn [obind];
    [discriminate|exact IH|discriminate].
Qed.

(** Pairs of a relation that holds cell by cell. *)
Lemma paired_left {A B} (R : A -> B -> Prop) (l : list A) (l' : list B) :
  Forall2 R l l' -> forall a, In a l -> exists b, In b l' /\ R a b.
Proof.
  induction 1 as [|x y l l' Hxy _ IH]; intros a Ha; [destruct Ha|].
  destruct Ha as [<-|Ha]; [exists y; simpl; auto|].
  destruct (IH a Ha) as (b & Hb & Hab). exists b; simpl; auto.
Qed.

Lemma paired_right {A B} (R : A -> B -> Prop) (l : list A) (l' : list B) :
  Forall2 R l l' -> forall b, In b l' -> exists a, In a l /\ R a b.
Proof.
  induction 1 as [|x y l l' Hxy _ IH]; intros b Hb; [destruct Hb|].
  destruct Hb as [<-|Hb]; [exists x; simpl; auto|].
  destruct (IH b Hb) as (a & Ha & Hab). exists a; simpl; auto.
Qed.

Lemma paired_length {A B} (R : A -> B -> Prop) (l : list A) (l' : list B) :
  Forall2 R l l' -> List.length l' = List.length l.
Proof. induction 1; simpl; congruence. Qed.

(* ------------------------------------------------------------------ *)
(** * fetch_candles: what it returns *)

Lemma astype_after_fillna (x : float64) (v : Z) :
  astype_int (fillna (Num 0) x) = Return v ->
  isinf x = false /\ v = int_volume x.
Proof.
  destruct x as [|neg|q]; cbn; [|discriminate|]; intros [= <-]; auto.
Qed.

Lemma astype_after_fillna_returns (x : float64) :
  isinf x = false -> astype_int (fillna (Num 0) x) = Return (int_volume x).
Proof. destruct x; [reflexivity|discriminate|reflexivity]. Qed.

Lemma strip_and_cast_Return (l : list (Row float64)) :
  forall l', strip_and_cast l = Return l' ->
    Forall2 (fun r r' => candle_time r' = candle_time r /\
                         open r' = open r /\ high r' = high r /\
                         low r' = low r /\ close r' = close r /\
                         isinf (volume r) = false /\
                         volume r' = int_volume (volume r)) l l'.
Proof.
  unfold strip_and_cast.
  induction l as [|r l IH]; intros l' H.
  - injection H as <-. constructor.
  - cbn [map] in H. apply traverse_cons_Return in H.
    destruct H as (b & l'' & Hb & Hl & ->).
    constructor; [|apply IH, Hl].
    unfold astype_int_row in Hb. cbn [volume set_volume set_time] in Hb.
    destruct (astype_int (fillna (Num 0) (volume r))) as [v| |] eqn:E;
      cbn [obind] in Hb; try discriminate.
    injection Hb as <-. apply astype_after_fillna in E. destruct E as [E1 E2].
    cbn. rewrite Z.add_0_r. auto 10.
Qed.

Lemma strip_and_cast_returns (l : list (Row float64)) :
  (forall r, In r l -> isinf (volume r) = false) ->
  exists l', strip_and_cast l = Return l'.
Proof.
  intro H. apply traverse_all_return. intros a Ha.
  apply in_map_iff in Ha. destruct Ha as (a1 & <- & Ha1).
  apply in_map_iff in Ha1. destruct Ha1 as (r & <- & Hr).
  unfold astype_int_row. cbn [volume set_volume set_time].
  rewrite (astype_after_fillna_returns _ (H r Hr)). cbn [obind]. eauto.
Qed.

Lemma strip_and_cast_no_exit (l : list (Row float64)) (c : Z) :
  strip_and_cast l <> SysExit c.
Proof.
  apply traverse_no_exit. intros a c'. unfold astype_int_row.
  destruct (astype_int (volume a)) as [v| |] eqn:E; cbn [obind]; try discriminate.
  destruct (volume a); discriminate.
Qed.

(** fetch_candles, stage by stage. *)
Lemma fetch_candles_stages (dl : DataFrame float64) :
  fetch_candles dl =
  if empty dl then SysExit 1
  else
    match dt_tz dl with
    | Some _ =>
        l <- strip_and_cast (filter ohlc_notna (rows dl)) ;;
        Return {| dt_tz := None; rows := l |}
    | None =>
        l1 <- traverse (localize_row kolkata) (filter ohlc_notna (rows dl)) ;;
        l <- strip_and_cast l1 ;;
        Return {| dt_tz := None; rows := l |}
    end.
Proof.
  unfold fetch_candles. destruct (empty dl); [reflexivity|].
  destruct dl as [tz l]. destruct tz as [z|].
  - reflexivity.
  - unfold tz_localize, dropna_ohlc. cbn [dt_tz rows].
    destruct (traverse (localize_row kolkata) (filter ohlc_notna l)) as [l1| |];
      reflexivity.
Qed.

Lemma localize_Return (l : list (Row float64)) :
  forall l1, traverse (localize_row kolkata) l = Return l1 ->
    Forall2 (fun r r1 => utc_of_local kolkata (candle_time r) = Some (candle_time r1) /\
                         open r1 = open r /\ high r1 = high r /\
                         low r1 = low r /\ close r1 = close r /\
                         volume r1 = volume r) l l1.
Proof.
  intros l1 H. apply traverse_Return in H.
  eapply Forall2_impl; [|exact H]. intros r r1 Hr. cbv beta in Hr.
  unfold localize_row in Hr.
  destruct (utc_of_local kolkata (candle_time r)) as [i|]; [|discriminate].
  injection Hr as <-. cbn. auto 10.
Qed.

Lemma fetched_compose (l : list (Row float64)) :
  forall l1 l',
    Forall2 (fun r r1 => utc_of_local kolkata (candle_time r) = Some (candle_time r1) /\
                         open r1 = open r /\ high r1 = high r /\
                         low r1 = low r /\ close r1 = close r /\
                         volume r1 = volume r) l l1 ->
    Forall2 (fun r r' => candle_time r' = candle_time r /\
                         open r' = open r /\ high r' = high r /\
                         low r' = low r /\ close r' = close r /\
                         isinf (volume r) = false /\
                         volume r' = int_volume (volume r)) l1 l' ->
    Forall2 (fetched None) l l'.
Proof.
  induction l as [|r l IH]; intros l1 l' H1 H2.
  - inversion H1; subst. inversion H2; subst. constructor.
  - inversion H1 as [|? r1 ? l1' Hr1 Hl1]; subst.
    inversion H2 as [|? r' ? l'' Hr' Hl']; subst.
    constructor; [|exact (IH _ _ Hl1 Hl')].
    destruct Hr1 as (T1 & O1 & H1' & L1 & C1 & V1).
    destruct Hr' as (T2 & O2 & H2' & L2 & C2 & I2 & V2).
    unfold fetched, provider_instant. repeat split; congruence.
Qed.

(** What a returning fetch_candles hands over. *)
Lemma fetch_candles_returns (dl : DataFrame float64) (df : DataFrame Z) :
  fetch_candles dl = Return df ->
  empty dl = false /\ dt_tz df = None /\
  Forall2 (fetched (dt_tz dl)) (filter ohlc_notna (rows dl)) (rows df).
Proof.
  rewrite fetch_candles_stages. destruct (empty dl); [discriminate|].
  destruct (dt_tz dl) as [z|].
  - destruct (strip_and_cast _) as [l| |] eqn:E; cbn [obind]; try discriminate.
    intros [= <-]. split; [reflexivity|]. split; [reflexivity|].
    apply strip_and_cast_Return in E. cbn [rows].
    eapply Forall2_impl; [|exact E]. intros r r' (T & R). cbv beta.
    unfold fetched, provider_instant. rewrite T. auto.
  - destruct (traverse (localize_row kolkata) _) as [l1| |] eqn:E1;
      cbn [obind]; try discriminate.
    destruct (strip_and_cast l1) as [l| |] eqn:E2; cbn [obind]; try discriminate.
    intros [= <-]. split; [reflexivity|]. split; [reflexivity|].
    cbn [rows]. apply localize_Return in E1. apply strip_and_cast_Return in E2.
    exact (fetched_compose _ _ _ E1 E2).
Qed.

Lemma fetch_candles_empty (dl : DataFrame float64) :
  empty dl = true -> fetch_candles dl = SysExit 1.
Proof. intro H. rewrite fetch_candles_stages, H. reflexivity. Qed.

Lemma fetch_candles_exit (dl : DataFrame float64) (c : Z) :
  fetch_candles dl = SysExit c -> empty dl = true /\ c = 1%Z.
Proof.
  rewrite fetch_candles_stages. destruct (empty dl); [intros [= <-]; auto|].
  assert (L : forall l c', traverse (localize_row kolkata) l <> SysExit c'
                           :> outcome (list (Row float64))).
  { intros l c'. apply traverse_no_exit. intros a c''. unfold localize_row.
    destruct (utc_of_local kolkata (candle_time a)); discriminate. }
  destruct (dt_tz dl) as [z|].
  - destruct (strip_and_cast _) as [l| |] eqn:E; cbn [obind]; try discriminate.
    elim (strip_and_cast_no_exit _ _ E).
  - destruct (traverse (localize_row kolkata) _) as [l1| |] eqn:E1;
      cbn [obind]; try discriminate; [|elim (L _ _ E1)].
    destruct (strip_and_cast l1) as [l| |] eqn:E2; cbn [obind]; try discriminate.
    elim (strip_and_cast_no_exit _ _ E2).
Qed.

Lemma fetch_candles_returns_when (dl : DataFrame float64) :
  empty dl = false ->
  (forall r, In r (rows dl) -> ohlc_notna r = true ->
             provider_instant (dt_tz dl) (candle_time r) <> None /\
             isinf (volume r) = false) ->
  exists df, fetch_candles dl = Return df.
Proof.
  intros Hne Hall. rewrite fetch_candles_stages, Hne.
  assert (Hk : forall r, In r (filter ohlc_notna (rows dl)) ->
                 provider_instant (dt_tz dl) (candle_time r) <> None /\
                 isinf (volume r) = false).
  { intros r Hr. apply filter_In in Hr. destruct Hr. auto. }
  clear Hall. revert Hk. generalize (filter ohlc_notna (rows dl)). intros kept Hk.
  destruct (dt_tz dl) as [z|].
  - destruct (strip_and_cast_returns kept) as (l & ->);
      [intros r Hr; apply Hk, Hr|]. cbn [obind]. eauto.
  - destruct (traverse_all_return (localize_row kolkata) kept) as (l1 & E1).
    { intros r Hr. destruct (Hk r Hr) as [Hi _]. unfold localize_row.
      cbn [provider_instant] in Hi.
      destruct (utc_of_local kolkata (candle_time r)); [eauto|congruence]. }
    rewrite E1. cbn [obind].
    destruct (strip_and_cast_returns l1) as (l & ->); [|cbn [obind]; eauto].
    intros r1 Hr1. apply localize_Return in E1.
    destruct (paired_right _ _ _ E1 r1 Hr1) as (r & Hr & _ & _ & _ & _ & _ & V).
    rewrite V. apply Hk, Hr.
Qed.

(** The instants of a column grow with its readings. *)
Lemma provider_instant_incr (tz : option tzinfo) (w1 w2 i1 i2 : Z) :
  (w1 < w2)%Z ->
  provider_instant tz w1 = Some i1 -> provider_instant tz w2 = Some i2 ->
  (i1 < i2)%Z.
Proof.
  destruct tz as [z|]; cbn [provider_instant].
  - intros H [= <-] [= <-]. exact H.
  - apply utc_of_local_incr.
Qed.

Lemma provider_instant_mono (tz : option tzinfo) (w1 w2 i1 i2 : Z) :
  (w1 <= w2)%Z ->
  provider_instant tz w1 = Some i1 -> provider_instant tz w2 = Some i2 ->
  (i1 <= i2)%Z.
Proof.
  intros H H1 H2. destruct (Z.eq_dec w1 w2) as [->|Hne].
  - rewrite H1 in H2. injection H2 as <-. lia.
  - assert (Hlt : (w1 < w2)%Z) by lia.
    pose proof (provider_instant_incr tz w1 w2 i1 i2 Hlt H1 H2). lia.
Qed.

Lemma provider_instant_inj (tz : option tzinfo) (w1 w2 i : Z) :
  provider_instant tz w1 = Some i -> provider_instant tz w2 = Some i -> w1 = w2.
Proof.
  intros H1 H2.
  destruct (Z.lt_trichotomy w1 w2) as [H|[H|H]]; [|exact H|].
  - pose proof (provider_instant_incr tz w1 w2 i i H H1 H2). lia.
  - pose proof (provider_instant_incr tz w2 w1 i i H H2 H1). lia.
Qed.

(* ------------------------------------------------------------------ *)
(** * Ascending sequences *)

Lemma ascending_tail (a : Z) (l : list Z) : ascending (a :: l) -> ascending l.
Proof. destruct l as [|b l]; [intros _; exact I|intros [_ H]; exact H]. Qed.

Lemma ascending_head (a : Z) (l : list Z) :
  ascending (a :: l) -> Forall (Z.le a) l.
Proof.
  revert a. induction l as [|b l IH]; intros a H; [constructor|].
  destruct H as [Hab H]. constructor; [assumption|].
  specialize (IH b H). eapply Forall_impl; [|exact IH].
  intros c Hc. cbv beta in Hc. lia.
Qed.

Lemma ascending_cons (a : Z) (l : list Z) :
  Forall (Z.le a) l -> ascending l -> ascending (a :: l).
Proof.
  destruct l as [|b l]; simpl; [trivial|].
  intros H1 H2. split; [|assumption]. now inversion H1.
Qed.

Lemma ascending_dropna (l : list (Row float64)) :
  ascending (map candle_time l) ->
  ascending (map candle_time (filter ohlc_notna l)).
Proof.
  induction l as [|a l IH]; intro H; [exact I|].
  pose proof (ascending_tail _ _ H) as Ht. pose proof (ascending_head _ _ H) as Hh.
  cbn [filter]. destruct (ohlc_notna a); [|apply IH, Ht].
  cbn [map]. apply ascending_cons; [|apply IH, Ht].
  rewrite Forall_forall in Hh. apply Forall_forall. intros z Hz. apply Hh.
  apply in_map_iff in Hz. destruct Hz as (x & <- & Hx).
  apply in_map. apply filter_In in Hx. apply Hx.
Qed.

Lemma ascending_fetched (tz : option tzinfo) (l : list (Row float64))
      (l' : list (Row Z)) :
  Forall2 (fetched tz) l l' ->
  ascending (map candle_time l) -> ascending (map candle_time l').
Proof.
  induction 1 as [|r r' l l' Hr Hl IH]; intro H; [exact I|].
  cbn [map] in *. apply ascending_cons; [|apply IH, (ascending_tail _ _ H)].
  pose proof (ascending_head _ _ H) as Hh. rewrite Forall_forall in Hh.
  apply Forall_forall. intros t Ht.
  apply in_map_iff in Ht. destruct Ht as (b & <- & Hb).
  destruct (paired_right _ _ _ Hl b Hb) as (a & Ha & Hab).
  destruct Hr as (Tr & _). destruct Hab as (Ta & _).
  apply (provider_instant_mono tz (candle_time r) (candle_time a));
    try assumption.
  apply Hh. apply in_map, Ha.
Qed.

(** Dropping rows keeps the remaining times pairwise distinct. *)
Lemma dropna_times_distinct (l : list (Row float64)) :
  NoDup (map candle_time l) ->
  NoDup (map candle_time (filter ohlc_notna l)).
Proof.
  induction l as [|r l IH]; intro H; [constructor|].
  cbn [map] in H. apply NoDup_cons_iff in H. destruct H as [Hfresh Hrest].
  cbn [filter]. destruct (ohlc_notna r); [|exact (IH Hrest)].
  cbn [map]. apply NoDup_cons_iff. split; [|exact (IH Hrest)].
  intro Hin. apply Hfresh. apply in_map_iff in Hin.
  destruct Hin as (r0 & <- & Hr0). apply in_map.
  apply filter_In in Hr0. apply Hr0.
Qed.

Lemma distinct_fetched (tz : option tzinfo) (l : list (Row float64))
      (l' : list (Row Z)) :
  Forall2 (fetched tz) l l' ->
  NoDup (map candle_time l) -> NoDup (map candle_time l').
Proof.
  induction 1 as [|r r' l l' Hr Hl IH]; intro H; [constructor|].
  cbn [map] in *. apply NoDup_cons_iff in H. destruct H as [Hfresh Hrest].
  apply NoDup_cons_iff. split; [|exact (IH Hrest)].
  intro Hin. apply Hfresh.
  apply in_map_iff in Hin. destruct Hin as (b & E & Hb).
  destruct (paired_right _ _ _ Hl b Hb) as (a & Ha & Hab).
  destruct Hr as (Tr & _). destruct Hab as (Ta & _). rewrite E in Ta.
  rewrite (provider_instant_inj tz _ _ _ Tr Ta). apply in_map, Ha.
Qed.

(* ------------------------------------------------------------------ *)
(** * Keys and the conflict test *)

Lemma BATCH_pos : 0 < BATCH.
Proof. unfold BATCH; lia. Qed.

Lemma key_eqb_eq (k1 k2 : string * Z) : key_eqb k1 k2 = true <-> k1 = k2.
Proof.
  destruct k1 as [s1 t1], k2 as [s2 t2]; unfold key_eqb; simpl.
  rewrite andb_true_iff, String.eqb_eq, Z.eqb_eq.
  split; [intros [-> ->]; reflexivity | intros [= -> ->]; auto].
Qed.

Lemma conflicts_In (t : Table) (r : DbRow) :
  conflicts t r = true <-> In (key r) (map key t).
Proof.
  unfold conflicts. rewrite existsb_exists, in_map_iff.
  split; intros (x & H1 & H2); exists x.
  - apply key_eqb_eq in H2. auto.
  - split; [assumption|]. apply key_eqb_eq. assumption.
Qed.

Lemma conflicts_app (t1 t2 : Table) (r : DbRow) :
  conflicts (t1 ++ t2) r = conflicts t1 r || conflicts t2 r.
Proof. apply existsb_app. Qed.

Lemma key_params (r : Row Z) :
  key (params r) = (SYMBOL, pg_timestamp (candle_time r)).
Proof. reflexivity. Qed.

Lemma unique_keys_upsert (t : Table) (r : DbRow) :
  unique_keys t -> unique_keys (fst (upsert t r)).
Proof.
  unfold upsert, unique_keys. intro H.
  destruct (conflicts t r) eqn:E; simpl; [assumption|].
  rewrite map_app. apply NoDup_app; [assumption| |].
  - simpl. constructor; [intros []|constructor].
  - intros k Hk [<-|[]]. apply conflicts_In in Hk. congruence.
Qed.

Lemma lookup_app (t1 t2 : Table) (k : string * Z) :
  lookup (t1 ++ t2) k
  = match lookup t1 k with Some x => Some x | None => lookup t2 k end.
Proof.
  unfold lookup. induction t1 as [|a t1 IH]; simpl; [reflexivity|].
  destruct (key_eqb (key a) k); [reflexivity|apply IH].
Qed.

Lemma lookup_none_conflicts (t : Table) (r : DbRow) :
  lookup t (key r) = None <-> conflicts t r = false.
Proof.
  unfold lookup, conflicts. induction t as [|a t IH]; simpl; [tauto|].
  destruct (key_eqb (key a) (key r)); simpl; [split; discriminate|exact IH].
Qed.

Lemma of_symbol_true (s : string) (x : DbRow) :
  of_symbol s x = true <-> symbol x = s.
Proof. unfold of_symbol. apply String.eqb_eq. Qed.

Lemma filter_none {A} (f : A -> bool) (l : list A) :
  (forall x, In x l -> f x = false) -> filter f l = [].
Proof.
  induction l as [|a l IH]; intro H; [reflexivity|].
  simpl. rewrite (H a) by (simpl; auto). apply IH.
  intros x Hx. apply H. simpl; auto.
Qed.

Lemma filter_all {A} (f : A -> bool) (l : list A) :
  Forall (fun x => f x = true) l -> filter f l = l.
Proof.
  induction 1 as [|a l Ha _ IH]; [reflexivity|].
  simpl. rewrite Ha, IH. reflexivity.
Qed.

(* ------------------------------------------------------------------ *)
(** * Reading a log *)

Lemma commit_marks_app (l1 l2 : list event) :
  forall seen,
    commit_marks seen (l1 ++ l2)
    = commit_marks seen l1 ++ commit_marks (seen + count_exec l1) l2.
Proof.
  unfold count_exec.
  induction l1 as [|e l1 IH]; intro seen; simpl.
  - now rewrite Nat.add_0_r.
  - destruct e; simpl; rewrite IH; try reflexivity.
    now rewrite Nat.add_succ_r.
Qed.

Lemma count_exec_app (l1 l2 : list event) :
  count_exec (l1 ++ l2) = count_exec l1 + count_exec l2.
Proof. unfold count_exec. now rewrite filter_app, length_app. Qed.


(* ------------------------------------------------------------------ *)
(** * One row, then a run of rows *)

Section Rows.

Variable raises : nat -> bool.

(** The three ways through lines 121-135. *)
Lemma exec_row_cases (st : Loader) (r : Row Z) :
  let st' := exec_row raises st r in
  nexec st' = S (nexec st) /\ durable st' = durable st /\
  ((aborted st || raises (nexec st) = true /\ aborted st' = true /\
    view st' = view st /\ inserted st' = inserted st /\
    skipped st' = S (skipped st) /\
    log st' = log st ++ [EvExecute (params r); EvWarn (candle_time r)])
   \/
   (aborted st = false /\ raises (nexec st) = false /\ aborted st' = false /\
    present_in (view st) r = true /\
    view st' = view st /\ inserted st' = inserted st /\
    skipped st' = S (skipped st) /\
    log st' = log st ++ [EvExecute (params r)])
   \/
   (aborted st = false /\ raises (nexec st) = false /\ aborted st' = false /\
    present_in (view st) r = false /\
    view st' = view st ++ [params r] /\ inserted st' = S (inserted st) /\
    skipped st' = skipped st /\
    log st' = log st ++ [EvExecute (params r)])).
Proof.
  unfold exec_row, upsert, present_in.
  destruct (aborted st); [simpl; auto 12|].
  destruct (raises (nexec st)); [simpl; auto 12|].
  destruct (conflicts (view st) (params r)); simpl; auto 20.
Qed.

Ltac row_cases st r :=
  let H := fresh "H" in
  pose proof (exec_row_cases st r) as H; cbv zeta in H;
  destruct H as (?Hn & ?Hd &
    [ (?Hr & ?Ha & ?Hv & ?Hi & ?Hs & ?Hl)
    | [ (?Ha0 & ?Hr & ?Ha & ?Hp & ?Hv & ?Hi & ?Hs & ?Hl)
      | (?Ha0 & ?Hr & ?Ha & ?Hp & ?Hv & ?Hi & ?Hs & ?Hl) ] ]).

Lemma run_rows_cons (r : Row Z) (l : list (Row Z)) (st : Loader) :
  run_rows raises (r :: l) st = run_rows raises l (exec_row raises st r).
Proof. reflexivity. Qed.

Lemma run_rows_app (l1 l2 : list (Row Z)) (st : Loader) :
  run_rows raises (l1 ++ l2) st = run_rows raises l2 (run_rows raises l1 st).
Proof. apply fold_left_app. Qed.

Lemma run_rows_counts (l : list (Row Z)) :
  forall st,
    nexec (run_rows raises l st) = nexec st + List.length l /\
    inserted (run_rows raises l st) + skipped (run_rows raises l st)
    = inserted st + skipped st + List.length l /\
    durable (run_rows raises l st) = durable st.
Proof.
  induction l as [|r l IH]; intro st; [simpl; auto with arith|].
  rewrite run_rows_cons.
  destruct (IH (exec_row raises st r)) as (E1 & E2 & E3).
  row_cases st r; cbn [List.length]; repeat split; try congruence; lia.
Qed.

Lemma run_rows_unique (l : list (Row Z)) :
  forall st, unique_keys (view st) -> unique_keys (view (run_rows raises l st)).
Proof.
  induction l as [|r l IH]; intros st H; [assumption|].
  rewrite run_rows_cons. apply IH. row_cases st r; rewrite Hv; try assumption.
  pose proof (unique_keys_upsert (view st) (params r) H) as U.
  unfold upsert in U. unfold present_in in Hp. rewrite Hp in U. exact U.
Qed.

(** A run only appends: one row per insert, each the parameter tuple of a
    row of the run, each under [SYMBOL]. *)
Lemma run_rows_appended (l : list (Row Z)) :
  forall st, exists added,
    view (run_rows raises l st) = view st ++ added /\
    List.length added + inserted st = inserted (run_rows raises l st) /\
    Forall (fun x => symbol x = SYMBOL) added /\
    (forall x, In x added -> exists r, In r l /\ x = params r).
Proof.
  induction l as [|r l IH]; intro st.
  - exists []. simpl. rewrite app_nil_r. repeat split; auto. intros x [].
  - rewrite run_rows_cons.
    destruct (IH (exec_row raises st r)) as (added & Ev & El & Ef & Ho).
    assert (Ho' : forall x, In x added -> exists r0, In r0 (r :: l) /\ x = params r0).
    { intros x Hx. destruct (Ho x Hx) as (r0 & H0 & ->). exists r0; simpl; auto. }
    row_cases st r.
    + exists added. rewrite Ev, Hv, <- El, Hi. auto.
    + exists added. rewrite Ev, Hv, <- El, Hi. auto.
    + exists (params r :: added). rewrite Ev, Hv, <- El, Hi, <- app_assoc.
      repeat split; [simpl; lia| |].
      * constructor; [reflexivity|assumption].
      * intros x [<-|Hx]; [exists r; simpl; auto|auto].
Qed.

Lemma run_rows_keeps (l : list (Row Z)) (st : Loader) (x : DbRow) :
  In x (view st) -> In x (view (run_rows raises l st)).
Proof.
  intro H. destruct (run_rows_appended l st) as (added & -> & _).
  apply in_app_iff; auto.
Qed.

Lemma present_in_more (t t' : Table) (r : Row Z) :
  (forall x, In x t -> In x t') ->
  present_in t r = true -> present_in t' r = true.
Proof.
  unfold present_in. rewrite !conflicts_In, !in_map_iff.
  intros H (x & H1 & H2). exists x. auto.
Qed.

Lemma present_in_keeps (l : list (Row Z)) (st : Loader) (r : Row Z) :
  present_in (view st) r = true ->
  present_in (view (run_rows raises l st)) r = true.
Proof. apply present_in_more. intros x. apply run_rows_keeps. Qed.

(** When every key of the run is in the table already, nothing is written,
    whatever the server rejects. *)
Lemma run_rows_noop (l : list (Row Z)) :
  forall st,
    (forall r, In r l -> present_in (view st) r = true) ->
    view (run_rows raises l st) = view st /\
    inserted (run_rows raises l st) = inserted st.
Proof.
  induction l as [|r l IH]; intros st H; [simpl; auto|].
  rewrite run_rows_cons.
  assert (Hr0 : present_in (view st) r = true) by (apply H; simpl; auto).
  assert (Hnext : forall r', In r' l ->
            present_in (view (exec_row raises st r)) r' = true).
  { intros r' Hr'. row_cases st r; try congruence;
      rewrite Hv; apply H; simpl; auto. }
  destruct (IH _ Hnext) as (E1 & E2).
  row_cases st r; try congruence; rewrite E1, E2, Hv, Hi; auto.
Qed.

(** A rejected statement is never counted as inserted. *)
Lemma run_rows_skipped_raises (l : list (Row Z)) :
  forall st,
    skipped st + List.length (filter raises (seq (nexec st) (List.length l)))
    <= skipped (run_rows raises l st).
Proof.
  induction l as [|r l IH]; intro st; [simpl; lia|].
  rewrite run_rows_cons. cbn [List.length seq filter].
  specialize (IH (exec_row raises st r)).
  row_cases st r; rewrite Hn, Hs in IH;
    destruct (raises (nexec st)); simpl; try lia; discriminate.
Qed.

(** The transaction is aborted after a run exactly when it was before or
    the server rejected one of the run's statements. *)
Lemma run_rows_aborted (l : list (Row Z)) :
  forall st,
    aborted (run_rows raises l st)
    = aborted st || existsb raises (seq (nexec st) (List.length l)).
Proof.
  induction l as [|r l IH]; intro st; [simpl; now rewrite orb_false_r|].
  rewrite run_rows_cons, IH. cbn [List.length seq existsb].
  row_cases st r; rewrite Hn, Ha.
  - rewrite orb_true_l. rewrite orb_assoc, Hr. reflexivity.
  - rewrite Ha0, Hr. reflexivity.
  - rewrite Ha0, Hr. reflexivity.
Qed.


Lemma exec_row_log (st : Loader) (r : Row Z) :
  log (exec_row raises st r)
  = log st ++ EvExecute (params r)
              :: (if aborted st || raises (nexec st)
                  then [EvWarn (candle_time r)] else []).
Proof.
  unfold exec_row, upsert.
  destruct (aborted st || raises (nexec st)); [reflexivity|].
  destruct (conflicts (view st) (params r)); reflexivity.
Qed.

(** What a run leaves in the log. *)
Lemma run_rows_log (l : list (Row Z)) :
  forall st,
    executes (log (run_rows raises l st))
    = executes (log st) ++ map (fun r => EvExecute (params r)) l /\
    count_exec (log (run_rows raises l st)) = count_exec (log st) + List.length l /\
    commit_marks 0 (log (run_rows raises l st)) = commit_marks 0 (log st) /\
    (forall n, Forall (progress_ok n) (log st) ->
               Forall (progress_ok n) (log (run_rows raises l st))) /\
    (forall e, In e (log st) -> In e (log (run_rows raises l st))).
Proof.
  induction l as [|r l IH]; intro st.
  - simpl. rewrite app_nil_r, Nat.add_0_r. auto.
  - rewrite run_rows_cons.
    destruct (IH (exec_row raises st r)) as (E1 & E2 & E3 & E4 & E5).
    rewrite E1, E2, E3. rewrite exec_row_log in *.
    unfold executes, count_exec in *.
    rewrite filter_app, commit_marks_app, length_app.
    destruct (aborted st || raises (nexec st)); cbn;
      rewrite <- ?app_assoc, ?app_nil_r; cbn;
      (split; [reflexivity|]); (split; [lia|]); (split; [reflexivity|]);
      (split; [intros n Hf; apply E4, Forall_app; split;
                 [assumption|repeat constructor]
              | intros e He; apply E5, in_app_iff; auto]).
Qed.


End Rows.

(* ------------------------------------------------------------------ *)
(** * Runs in which the server rejects nothing *)

Lemma existsb_seq_false (f : nat -> bool) (a n : nat) :
  (forall k, a <= k < a + n -> f k = false) -> existsb f (seq a n) = false.
Proof.
  revert a. induction n as [|n IH]; intros a H; [reflexivity|].
  cbn [seq existsb]. rewrite (H a) by lia. apply IH. intros k Hk. apply H. lia.
Qed.


Lemma present_in_snoc (t : Table) (r r' : Row Z) :
  present_in (t ++ [params r]) r'
  = present_in t r'
    || (pg_timestamp (candle_time r) =? pg_timestamp (candle_time r'))%Z.
Proof.
  unfold present_in. rewrite conflicts_app. f_equal.
  unfold conflicts, key_eqb; simpl. rewrite ?String.eqb_refl, ?orb_false_r.
  reflexivity.
Qed.

Lemma count_present_le (t : Table) (l : list (Row Z)) :
  count_present t l <= List.length l.
Proof. apply filter_length_le. Qed.

Section Clean.

Variable raises : nat -> bool.

Lemma quiet_step (st : Loader) (r : Row Z) (m : nat) :
  quiet raises st (S m) ->
  quiet raises (exec_row raises st r) m /\
  aborted st || raises (nexec st) = false.
Proof.
  intros [Ha Hno].
  assert (Hk : raises (nexec st) = false) by (apply Hno; lia).
  split; [|now rewrite Ha, Hk].
  destruct (exec_row_cases raises st r) as (Hn & _ & C). cbv zeta in Hn, C.
  split.
  - destruct C as [ (Hr & _) | [ (_ & _ & A & _) | (_ & _ & A & _) ] ];
      [rewrite Ha, Hk in Hr; discriminate | exact A | exact A].
  - intros k Hk'. apply Hno. lia.
Qed.

Lemma run_rows_quiet (l : list (Row Z)) (st : Loader) :
  quiet raises st (List.length l) -> aborted (run_rows raises l st) = false.
Proof.
  intros [Ha Hno]. rewrite run_rows_aborted, Ha. cbn [orb].
  apply existsb_seq_false, Hno.
Qed.

(** Every key of the run ends up in the table. *)
Lemma run_rows_all_present (l : list (Row Z)) :
  forall st,
    quiet raises st (List.length l) ->
    forall r, In r l -> present_in (view (run_rows raises l st)) r = true.
Proof.
  induction l as [|r l IH]; intros st Hq r' Hin; [destruct Hin|].
  rewrite run_rows_cons.
  destruct (quiet_step st r _ Hq) as [Hq' Hk].
  destruct Hin as [<-|Hin]; [|apply IH; assumption].
  apply present_in_keeps.
  destruct (exec_row_cases raises st r) as (_ & _ & C). cbv zeta in C.
  destruct C as [ (Hr & _) | [ (_ & _ & _ & Hp & Hv & _)
                             | (_ & _ & _ & Hp & Hv & _) ] ];
    [congruence | rewrite Hv; exact Hp |].
  rewrite Hv, present_in_snoc, Z.eqb_refl. apply orb_true_r.
Qed.

(** A row is skipped exactly when its key was in the table before the
    run, provided the rows with new keys have keys of their own. *)
Lemma run_rows_tally (l : list (Row Z)) :
  forall st,
    quiet raises st (List.length l) ->
    NoDup (map (fun r => pg_timestamp (candle_time r))
               (filter (absent_from (view st)) l)) ->
    inserted (run_rows raises l st) + count_present (view st) l
    = inserted st + List.length l /\
    skipped (run_rows raises l st) = skipped st + count_present (view st) l.
Proof.
  induction l as [|r l IH]; intros st Hq Hnd;
    [unfold run_rows, count_present; simpl; lia|].
  rewrite run_rows_cons.
  destruct (quiet_step st r _ Hq) as [Hq' Hk].
  destruct (exec_row_cases raises st r) as (_ & _ & C). cbv zeta in C.
  destruct C as [ (Hr & _) | [ (_ & _ & _ & Hp & Hv & Hi & Hs & _)
                             | (_ & _ & _ & Hp & Hv & Hi & Hs & _) ] ];
    [congruence| |].
  - cbn [filter] in Hnd. unfold absent_from at 1 in Hnd. rewrite Hp in Hnd.
    cbn [negb] in Hnd.
    destruct (IH (exec_row raises st r) Hq') as [E1 E2];
      [rewrite Hv; exact Hnd|].
    rewrite Hv in E1, E2. unfold count_present in *. cbn [filter].
    rewrite Hp. cbn [List.length]. lia.
  - cbn [filter] in Hnd. unfold absent_from at 1 in Hnd. rewrite Hp in Hnd.
    cbn [negb map] in Hnd. apply NoDup_cons_iff in Hnd.
    destruct Hnd as [Hfresh Hnd].
    assert (Hsame : forall r', In r' l ->
              present_in (view st ++ [params r]) r' = present_in (view st) r').
    { intros r' Hr'. rewrite present_in_snoc.
      destruct (present_in (view st) r') eqn:E; [reflexivity|]. cbn [orb].
      apply Z.eqb_neq. intro Eq. apply Hfresh. rewrite Eq.
      apply (in_map (fun r0 => pg_timestamp (candle_time r0))).
      apply filter_In. split; [exact Hr'|]. unfold absent_from. now rewrite E. }
    assert (F1 : filter (absent_from (view st ++ [params r])) l
                 = filter (absent_from (view st)) l).
    { apply filter_ext_in. intros r' Hr'. unfold absent_from.
      now rewrite Hsame. }
    assert (F2 : count_present (view st ++ [params r]) l
                 = count_present (view st) l).
    { unfold count_present. f_equal. apply filter_ext_in. exact Hsame. }
    destruct (IH (exec_row raises st r) Hq') as [E1 E2];
      [rewrite Hv, F1; exact Hnd|].
    rewrite Hv, F2 in E1, E2. unfold count_present in *. cbn [filter].
    rewrite Hp. cbn [List.length]. lia.
Qed.

Lemma run_rows_keeps_lookup (l : list (Row Z)) (st : Loader)
      (k : string * Z) (x : DbRow) :
  lookup (view st) k = Some x ->
  lookup (view (run_rows raises l st)) k = Some x.
Proof.
  intro H. destruct (run_rows_appended raises l st) as (added & -> & _).
  rewrite lookup_app, H. reflexivity.
Qed.

Lemma lookup_snoc_other (t : Table) (a : Row Z) (u : Z) :
  pg_timestamp (candle_time a) <> u ->
  lookup (t ++ [params a]) (SYMBOL, u) = lookup t (SYMBOL, u).
Proof.
  intro H. rewrite lookup_app. destruct (lookup t (SYMBOL, u)); [reflexivity|].
  unfold lookup. cbn [find].
  destruct (key_eqb (key (params a)) (SYMBOL, u)) eqn:E; [|reflexivity].
  apply key_eqb_eq in E. rewrite key_params in E. injection E as E. contradiction.
Qed.

(** Of the rows stored under one new time, the first is the one kept. *)
Lemma run_rows_first_wins (l : list (Row Z)) :
  forall st u r,
    quiet raises st (List.length l) ->
    lookup (view st) (SYMBOL, u) = None ->
    first_at u l = Some r ->
    lookup (view (run_rows raises l st)) (SYMBOL, u) = Some (params r).
Proof.
  induction l as [|a l IH]; intros st u r Hq Hnone Hfirst; [discriminate|].
  rewrite run_rows_cons.
  destruct (quiet_step st a _ Hq) as [Hq' Hk].
  unfold first_at in Hfirst. cbn [find] in Hfirst.
  destruct (exec_row_cases raises st a) as (_ & _ & C). cbv zeta in C.
  destruct (Z.eqb_spec (pg_timestamp (candle_time a)) u) as [Es|Es].
  - injection Hfirst as <-. subst u.
    apply run_rows_keeps_lookup.
    assert (Hp : present_in (view st) a = false).
    { unfold present_in. apply lookup_none_conflicts. exact Hnone. }
    destruct C as [ (Hr & _) | [ (_ & _ & _ & Hp' & _)
                               | (_ & _ & _ & _ & Hv & _) ] ];
      try congruence.
    rewrite Hv, lookup_app, Hnone.
    unfold lookup. cbn [find].
    replace (key_eqb (key (params a)) (SYMBOL, pg_timestamp (candle_time a)))
      with true; [reflexivity|].
    symmetry. apply key_eqb_eq. reflexivity.
  - apply IH; [exact Hq'| |exact Hfirst].
    destruct C as [ (_ & _ & Hv & _) | [ (_ & _ & _ & _ & Hv & _)
                                       | (_ & _ & _ & _ & Hv & _) ] ];
      rewrite Hv; try assumption.
    rewrite lookup_snoc_other by assumption. exact Hnone.
Qed.

End Clean.

(* ------------------------------------------------------------------ *)
(** * The batched loop *)


Lemma firstn_next_batch {A} (B : nat) (l : list A) :
  forall i, firstn (i + B) l = firstn i l ++ firstn B (skipn i l).
Proof.
  induction l as [|a l IH]; intro i.
  - now rewrite skipn_nil, !firstn_nil.
  - destruct i as [|i]; [reflexivity|]. cbn [Nat.add firstn skipn app].
    now rewrite IH.
Qed.

Lemma in_batch_rows {A} (B i : nat) (l : list A) (x : A) :
  In x (firstn B (skipn i l)) -> In x l.
Proof.
  intro H. apply In_nth_error in H. destruct H as (m & Hm).
  rewrite nth_error_firstn in Hm. destruct (m <? B); [|discriminate].
  rewrite nth_error_skipn in Hm. eapply nth_error_In, Hm.
Qed.



Lemma batch_length {A} (B i : nat) (l : list A) :
  List.length (firstn B (skipn i l)) = Nat.min B (List.length l - i).
Proof. now rewrite length_firstn, length_skipn. Qed.

Section Batches.

Variable raises : nat -> bool.
Variable rws : list (Row Z).

Let n := List.length rws.

Lemma batch_loop_ind (P : nat -> Loader -> Prop) :
  (forall i st, i < n -> P i st -> P (i + BATCH) (load_batch raises rws st i)) ->
  forall fuel i st,
    P i st -> n <= fuel + i ->
    exists j, n <= j /\
      P j (fold_left (load_batch raises rws) (range_from fuel i n BATCH) st).
Proof.
  intro Hstep. induction fuel as [|fuel IH]; intros i st HP Hle.
  - exists i. split; [lia|exact HP].
  - cbn [range_from]. destruct (Nat.ltb_spec i n) as [Hlt|Hge].
    + cbn [fold_left]. apply IH; [apply Hstep; assumption|].
      pose proof BATCH_pos. lia.
    + exists i. split; [lia|exact HP].
Qed.

(** One turn of the outer loop, read off the run over its batch. *)
Lemma load_batch_facts (st : Loader) (i : nat) :
  let st1 := run_rows raises (firstn BATCH (skipn i rws)) st in
  let st' := load_batch raises rws st i in
  view st' = (if aborted st1 then durable st else view st1) /\
  durable st' = view st' /\
  aborted st' = false /\
  nexec st' = nexec st1 /\ inserted st' = inserted st1 /\
  skipped st' = skipped st1 /\
  log st' = log st1 ++ [EvCommit;
                        EvProgress (Nat.min (i + BATCH) n) n
                                   (inserted st1) (skipped st1)].
Proof.
  intros st1 st'. subst st1 st'. unfold load_batch.
  fold (run_rows raises (firstn BATCH (skipn i rws)) st).
  destruct (run_rows_counts raises (firstn BATCH (skipn i rws)) st) as (_ & _ & D).
  revert D. generalize (run_rows raises (firstn BATCH (skipn i rws)) st).
  intros st1 D. unfold progress, commit. cbn.
  rewrite D, <- app_assoc. fold n. repeat split; reflexivity.
Qed.

Lemma load_batch_boundary (st : Loader) (i : nat) :
  i < n -> boundary n i st ->
  boundary n (i + BATCH) (load_batch raises rws st i).
Proof.
  intros Hi (Ha & Hv & Hn & Hc & He).
  destruct (load_batch_facts st i) as (F1 & F2 & F3 & F4 & F5 & F6 & F7).
  cbv zeta in *.
  destruct (run_rows_counts raises (firstn BATCH (skipn i rws)) st) as (C1 & C2 & _).
  destruct (run_rows_log raises (firstn BATCH (skipn i rws)) st) as (_ & L2 & _).
  rewrite batch_length in C1, C2, L2. fold n in C1, C2, L2.
  unfold boundary. rewrite F2, F3, F4, F5, F6, F7, count_exec_app, L2.
  set (st1 := run_rows raises (firstn BATCH (skipn i rws)) st) in *.
  clearbody st1. unfold count_exec in *. cbn [filter is_execute List.length].
  repeat split; try reflexivity; lia.
Qed.

(** Invariants of the loop, given for one batch at a time. *)
Lemma loop_invariant (P : nat -> Loader -> Prop) (db : Table) :
  (forall i st, i < n -> boundary n i st -> P i st ->
                P (i + BATCH) (load_batch raises rws st i)) ->
  P 0 (start db) ->
  exists j, n <= j /\
    boundary n j (fold_left (load_batch raises rws) (range 0 n BATCH) (start db)) /\
    P j (fold_left (load_batch raises rws) (range 0 n BATCH) (start db)).
Proof.
  intros Hstep H0. unfold range.
  apply (batch_loop_ind (fun i st => boundary n i st /\ P i st)).
  - intros i st Hi [Hb HP]. split; [apply load_batch_boundary; assumption|].
    apply Hstep; assumption.
  - split; [|exact H0]. unfold boundary, start. cbn. repeat split; lia.
  - lia.
Qed.

End Batches.

(* ------------------------------------------------------------------ *)
(** * load_to_db as a whole *)

Lemma load_to_db_refused (raises : nat -> bool) (df : DataFrame Z) (db : Table) :
  load_to_db false raises df db
  = {| result := SysExit 1; db_after := db; events := [EvConnectFailed] |}.
Proof. reflexivity. Qed.

Lemma load_to_db_final (raises : nat -> bool) (df : DataFrame Z) (db : Table) :
  load_to_db true raises df db
  = {| result := Return (inserted (final_state raises (rows df) db),
                         skipped (final_state raises (rows df) db));
       db_after := durable (final_state raises (rows df) db);
       events := log (final_state raises (rows df) db) ++ [EvClose] |}.
Proof. reflexivity. Qed.

Section Final.

Variable raises : nat -> bool.
Variable rws : list (Row Z).
Variable db : Table.

Let n := List.length rws.
Let f := final_state raises rws db.

Lemma final_invariant (P : nat -> Loader -> Prop) :
  (forall i st, i < n -> boundary n i st -> P i st ->
                P (i + BATCH) (load_batch raises rws st i)) ->
  P 0 (start db) ->
  exists j, n <= j /\ boundary n j f /\ P j f.
Proof. apply loop_invariant. Qed.

Lemma final_boundary :
  aborted f = false /\ view f = durable f /\ nexec f = n /\
  inserted f + skipped f = n.
Proof.
  destruct (final_invariant (fun _ _ => True)) as (j & Hj & (A & V & N & C & _) & _);
    auto.
  rewrite C, N. repeat split; try assumption; lia.
Qed.

Lemma final_unique : unique_keys db -> unique_keys (durable f).
Proof.
  intro H.
  destruct (final_invariant (fun _ st => unique_keys (view st)))
    as (j & _ & (_ & V & _) & U); [|exact H|rewrite <- V; exact U].
  intros i st Hi (_ & Vst & _) Hu.
  destruct (load_batch_facts raises rws st i) as (F1 & _). cbv zeta in F1.
  rewrite F1. destruct (aborted _); [rewrite <- Vst; exact Hu|].
  apply run_rows_unique, Hu.
Qed.

(** The committed table only grows, by rows of the frame. *)
Lemma final_appended :
  exists added,
    durable f = db ++ added /\
    List.length added <= inserted f /\
    Forall (fun x => symbol x = SYMBOL) added /\
    (forall x, In x added -> exists r, In r rws /\ x = params r).
Proof.
  destruct (final_invariant (fun _ st =>
              exists added,
                view st = db ++ added /\
                List.length added <= inserted st /\
                Forall (fun x => symbol x = SYMBOL) added /\
                (forall x, In x added -> exists r, In r rws /\ x = params r)))
    as (j & _ & (_ & V & _) & added & E & R).
  - intros i st Hi (_ & Vst & _) (added & E & L & S & O).
    destruct (load_batch_facts raises rws st i) as (F1 & _ & _ & _ & F5 & _).
    cbv zeta in F1, F5. rewrite F1, F5.
    destruct (run_rows_appended raises (firstn BATCH (skipn i rws)) st)
      as (more & Ev & El & Es & Eo).
    destruct (aborted _).
    + exists added. rewrite <- Vst. repeat split; try assumption. lia.
    + exists (added ++ more). rewrite Ev, E, <- app_assoc, length_app.
      repeat split; [lia|apply Forall_app; auto|].
      intros x Hx. apply in_app_iff in Hx. destruct Hx as [Hx|Hx]; [auto|].
      destruct (Eo x Hx) as (r & Hr & ->). exists r. split; [|reflexivity].
      eapply in_batch_rows, Hr.
  - exists []. cbn. rewrite app_nil_r. repeat split; auto. intros x [].
  - exists added. rewrite <- V. auto.
Qed.

Lemma filter_seq_split (a m : nat) :
  List.length (filter raises (seq 0 (a + m)))
  = List.length (filter raises (seq 0 a))
    + List.length (filter raises (seq a m)).
Proof. now rewrite seq_app, filter_app, length_app. Qed.

Lemma final_skipped_raises : count_raises raises n <= skipped f.
Proof.
  destruct (final_invariant (fun _ st =>
              count_raises raises (nexec st) <= skipped st))
    as (j & Hj & (_ & _ & N & _) & H).
  - intros i st Hi (_ & _ & Nst & _) Hs.
    destruct (load_batch_facts raises rws st i) as (_ & _ & _ & F4 & _ & F6 & _).
    cbv zeta in F4, F6. rewrite F4, F6.
    destruct (run_rows_counts raises (firstn BATCH (skipn i rws)) st) as (C1 & _).
    pose proof (run_rows_skipped_raises raises (firstn BATCH (skipn i rws)) st) as S.
    rewrite C1. unfold count_raises in *. rewrite filter_seq_split. lia.
  - cbn. lia.
  - replace n with (nexec f) by (rewrite N; lia). exact H.
Qed.

(** When the table holds every key of the frame, a run writes nothing. *)
Lemma final_noop :
  (forall r, In r rws -> present_in db r = true) ->
  durable f = db /\ inserted f = 0.
Proof.
  intro Hall.
  destruct (final_invariant (fun _ st => view st = db /\ inserted st = 0))
    as (j & _ & (_ & V & _) & E & I); [| |rewrite <- V; auto].
  - intros i st Hi (_ & Vst & _) (E & I).
    destruct (load_batch_facts raises rws st i) as (F1 & _ & _ & _ & F5 & _).
    cbv zeta in F1, F5. rewrite F1, F5.
    destruct (run_rows_noop raises (firstn BATCH (skipn i rws)) st) as (N1 & N2).
    { intros r Hr. rewrite E. apply Hall. eapply in_batch_rows, Hr. }
    rewrite N1, N2, <- Vst. destruct (aborted _); auto.
  - auto.
Qed.


End Final.

(* ------------------------------------------------------------------ *)
(** * A run in which the server rejects nothing is the plain loop *)

Lemma sim_refl (a : Loader) : sim a a.
Proof. unfold sim; auto. Qed.

Lemma sim_trans (a b c : Loader) : sim a b -> sim b c -> sim a c.
Proof.
  unfold sim; intros (?&?&?&?&?) (?&?&?&?&?); repeat split; congruence.
Qed.

Lemma exec_row_sim (raises : nat -> bool) (a b : Loader) (r : Row Z) :
  sim a b -> sim (exec_row raises a r) (exec_row raises b r).
Proof.
  destruct a, b; unfold sim; simpl; intros (?&?&?&?&?); subst.
  unfold exec_row, upsert; simpl.
  destruct (_ || _); [|destruct (conflicts _ _)]; simpl; auto.
Qed.

Lemma run_rows_sim (raises : nat -> bool) (l : list (Row Z)) :
  forall a b, sim a b -> sim (run_rows raises l a) (run_rows raises l b).
Proof.
  induction l as [|r l IH]; intros a b H; [assumption|].
  rewrite !run_rows_cons. apply IH, exec_row_sim, H.
Qed.

Section Flat.

Variable raises : nat -> bool.
Variable rws : list (Row Z).
Variable db : Table.

Let n := List.length rws.

Hypothesis no_raise : forall k, k < n -> raises k = false.

Lemma start_quiet : quiet raises (start db) n.
Proof. split; [reflexivity|]. intros k Hk. apply no_raise. cbn in Hk. lia. Qed.

Lemma final_flat :
  sim (final_state raises rws db) (run_rows raises rws (start db)) /\
  durable (final_state raises rws db) = view (run_rows raises rws (start db)).
Proof.
  destruct (final_invariant raises rws db (fun i st =>
              sim st (run_rows raises (firstn i rws) (start db))))
    as (j & Hj & (_ & V & _) & S).
  - intros i st Hi (Ast & Vst & Nst & _) Hs.
    destruct (load_batch_facts raises rws st i)
      as (F1 & _ & F3 & F4 & F5 & F6 & _). cbv zeta in *.
    assert (Q : aborted (run_rows raises (firstn BATCH (skipn i rws)) st) = false).
    { apply run_rows_quiet. split; [exact Ast|].
      intros k Hk. apply no_raise. rewrite batch_length in Hk. fold n in Hk. lia. }
    rewrite Q in F1.
    rewrite firstn_next_batch, run_rows_app.
    eapply sim_trans; [|apply run_rows_sim, Hs].
    unfold sim. rewrite F1, F3, F4, F5, F6, Q. auto.
  - apply sim_refl.
  - rewrite firstn_all2 in S by (fold n; lia). split; [exact S|].
    rewrite <- V. apply S.
Qed.

(** A connected run with no rejection, read off the plain loop. *)
Lemma load_to_db_flat (df : DataFrame Z) :
  rows df = rws ->
  let F := run_rows raises rws (start db) in
  result (load_to_db true raises df db) = Return (inserted F, skipped F) /\
  db_after (load_to_db true raises df db) = view F.
Proof.
  intros E F. rewrite load_to_db_final, E. cbn [result db_after].
  destruct final_flat as ((_ & _ & _ & I & S) & D).
  rewrite I, S, D. split; reflexivity.
Qed.

End Flat.

(* ------------------------------------------------------------------ *)
(** * The log of a run *)

Section Log.

Variable raises : nat -> bool.
Variable rws : list (Row Z).
Variable db : Table.

Let n := List.length rws.
Let f := final_state raises rws db.



Lemma final_progress_ok : Forall (progress_ok n) (log f).
Proof.
  destruct (final_invariant raises rws db (fun _ st =>
              Forall (progress_ok n) (log st)))
    as (j & _ & _ & P); [| |exact P].
  - intros i st Hi (_ & _ & Nst & Cst & _) P.
    destruct (load_batch_facts raises rws st i) as (_ & _ & _ & _ & _ & _ & F7).
    cbv zeta in F7. rewrite F7.
    destruct (run_rows_counts raises (firstn BATCH (skipn i rws)) st) as (_ & C2 & _).
    destruct (run_rows_log raises (firstn BATCH (skipn i rws)) st)
      as (_ & _ & _ & L4 & _).
    rewrite batch_length in C2. fold n in C2.
    apply Forall_app. split; [apply L4, P|].
    repeat constructor; fold n; lia.
  - repeat constructor.
Qed.



End Log.

(* ------------------------------------------------------------------ *)
(** * Batches stand or fall one by one *)


Section Independence.

Variable raises : nat -> bool.
Variable rws : list (Row Z).
Variable db : Table.

Let n := List.length rws.
Let f := final_state raises rws db.


End Independence.

(* ------------------------------------------------------------------ *)
(** * Whole runs of load_to_db *)

Lemma load_to_db_unique (c : bool) (raises : nat -> bool)
      (df : DataFrame Z) (db : Table) :
  unique_keys db -> unique_keys (db_after (load_to_db c raises df db)).
Proof.
  intro H. destruct c; [|exact H].
  rewrite load_to_db_final. cbn [db_after]. apply final_unique, H.
Qed.

(** The table after a connected run: the table before it, then the rows the
    run added and committed. *)
Lemma load_to_db_appended (raises : nat -> bool) (df : DataFrame Z) (db : Table) :
  exists added ins skp,
    result (load_to_db true raises df db) = Return (ins, skp) /\
    db_after (load_to_db true raises df db) = db ++ added /\
    List.length added <= ins /\
    ins + skp = len df /\
    count_raises raises (len df) <= skp /\
    Forall (fun x => symbol x = SYMBOL) added /\
    (forall x, In x added -> exists r, In r (rows df) /\ x = params r).
Proof.
  rewrite load_to_db_final. cbn [result db_after].
  destruct (final_appended raises (rows df) db) as (added & D & L & S & O).
  destruct (final_boundary raises (rows df) db) as (_ & _ & _ & C).
  pose proof (final_skipped_raises raises (rows df) db) as R.
  exists added. do 2 eexists. split; [reflexivity|]. auto 10.
Qed.

Lemma load_to_db_origin (c : bool) (raises : nat -> bool)
      (df : DataFrame Z) (db : Table) (x : DbRow) :
  In x (db_after (load_to_db c raises df db)) ->
  In x db \/ exists r, In r (rows df) /\ x = params r.
Proof.
  destruct c; [|auto].
  destruct (load_to_db_appended raises df db)
    as (added & ins & skp & _ & -> & _ & _ & _ & _ & O).
  intro H. apply in_app_iff in H. destruct H; auto.
Qed.

(** A connected run in which the server rejects nothing. *)
Lemma load_to_db_quiet (raises : nat -> bool) (df : DataFrame Z) (db : Table) :
  (forall k, k < len df -> raises k = false) ->
  let F := run_rows raises (rows df) (start db) in
  quiet raises (start db) (len df) /\
  result (load_to_db true raises df db) = Return (inserted F, skipped F) /\
  db_after (load_to_db true raises df db) = view F.
Proof.
  intros Hno F. split; [apply start_quiet, Hno|].
  apply (load_to_db_flat raises (rows df) db Hno df eq_refl).
Qed.

Lemma load_to_db_tally (raises : nat -> bool) (df : DataFrame Z) (db : Table) :
  (forall k, k < len df -> raises k = false) ->
  NoDup (map (fun r => pg_timestamp (candle_time r))
             (filter (absent_from db) (rows df))) ->
  result (load_to_db true raises df db)
  = Return (len df - count_present db (rows df), count_present db (rows df)).
Proof.
  intros Hno Hnd.
  destruct (load_to_db_quiet raises df db Hno) as (Q & -> & _).
  destruct (run_rows_tally raises (rows df) (start db) Q Hnd) as [E1 E2].
  cbn [start view inserted skipped] in E1, E2.
  pose proof (count_present_le db (rows df)).
  unfold len. f_equal. f_equal; lia.
Qed.

Lemma load_to_db_stores_keys
      (raises : nat -> bool) (df : DataFrame Z) (db : Table) (r : Row Z) :
  (forall k, k < len df -> raises k = false) ->
  In r (rows df) ->
  exists x, In x (db_after (load_to_db true raises df db)) /\
            symbol x = SYMBOL /\ ctime x = pg_timestamp (candle_time r).
Proof.
  intros Hno Hr.
  destruct (load_to_db_quiet raises df db Hno) as (Q & _ & ->).
  pose proof (run_rows_all_present raises (rows df) (start db) Q r Hr) as P.
  unfold present_in in P. apply conflicts_In, in_map_iff in P.
  destruct P as (x & Hk & Hx). exists x. split; [exact Hx|].
  rewrite key_params in Hk. unfold key in Hk. injection Hk as -> ->. auto.
Qed.

Lemma load_to_db_keeps_lookup (c : bool) (raises : nat -> bool)
      (df : DataFrame Z) (db : Table) (k : string * Z) (x : DbRow) :
  lookup db k = Some x ->
  lookup (db_after (load_to_db c raises df db)) k = Some x.
Proof.
  intro H. destruct c; [|exact H].
  destruct (load_to_db_appended raises df db)
    as (added & ins & skp & _ & D & _).
  rewrite D, lookup_app, H. reflexivity.
Qed.

Lemma count_present_foreign (db : Table) (l : list (Row Z)) :
  (forall x, In x db -> symbol x <> SYMBOL) ->
  count_present db l = 0 /\ filter (absent_from db) l = l.
Proof.
  intro H.
  assert (A : forall r, present_in db r = false).
  { intro r. unfold present_in.
    destruct (conflicts db (params r)) eqn:E; [|reflexivity].
    apply conflicts_In, in_map_iff in E. destruct E as (x & Hk & Hx).
    elim (H x Hx). unfold key in Hk. now injection Hk. }
  split.
  - unfold count_present. rewrite filter_none; [reflexivity|]. intros; apply A.
  - apply filter_all, Forall_forall. intros r _. unfold absent_from.
    now rewrite A.
Qed.


(* ------------------------------------------------------------------ *)
(** * verify *)

Lemma fold_min_spec (l : list Z) :
  forall a,
    let m := fold_left Z.min l a in
    (m <= a)%Z /\ (forall x, In x l -> (m <= x)%Z) /\ (m = a \/ In m l).
Proof.
  induction l as [|b l IH]; intro a; cbn [fold_left].
  - cbv zeta. split; [lia|]. split; [intros x []|auto].
  - destruct (IH (Z.min a b)) as (H1 & H2 & H3). cbv zeta.
    split; [lia|]. split.
    + intros x [<-|Hx]; [lia|auto].
    + destruct H3 as [H3|H3]; [|right; right; exact H3].
      destruct (Z.min_spec a b) as [[_ E]|[_ E]];
        [left; congruence | right; left; congruence].
Qed.

Lemma fold_max_spec (l : list Z) :
  forall a,
    let m := fold_left Z.max l a in
    (a <= m)%Z /\ (forall x, In x l -> (x <= m)%Z) /\ (m = a \/ In m l).
Proof.
  induction l as [|b l IH]; intro a; cbn [fold_left].
  - cbv zeta. split; [lia|]. split; [intros x []|auto].
  - destruct (IH (Z.max a b)) as (H1 & H2 & H3). cbv zeta.
    split; [lia|]. split.
    + intros x [<-|Hx]; [lia|auto].
    + destruct H3 as [H3|H3]; [|right; right; exact H3].
      destruct (Z.max_spec a b) as [[_ E]|[_ E]];
        [right; left; congruence | left; congruence].
Qed.

Lemma verify_counts (t : Table) :
  exists row, verify true t = Return row /\
              candles_of row = List.length (filter (of_symbol SYMBOL) t).
Proof.
  unfold verify. destruct (filter (of_symbol SYMBOL) t) as [|x sel];
    eexists; split; reflexivity.
Qed.

(** What the answer of the query says when some row has our symbol. *)
Lemma verify_range (t : Table) (x0 : DbRow) :
  In x0 t -> symbol x0 = SYMBOL ->
  exists c lo hi,
    verify true t = Return (Some (SYMBOL, c, lo, hi)) /\
    c = List.length (filter (of_symbol SYMBOL) t) /\ 1 <= c /\
    (forall x, In x t -> symbol x = SYMBOL -> (lo <= ctime x <= hi)%Z) /\
    (exists x, In x t /\ symbol x = SYMBOL /\ ctime x = lo) /\
    (exists x, In x t /\ symbol x = SYMBOL /\ ctime x = hi).
Proof.
  intros Hin Hs.
  assert (Hsel : In x0 (filter (of_symbol SYMBOL) t))
    by (apply filter_In; split; [assumption|apply of_symbol_true, Hs]).
  assert (Hback : forall x, In x (filter (of_symbol SYMBOL) t) ->
                            In x t /\ symbol x = SYMBOL).
  { intros x Hx. apply filter_In in Hx. destruct Hx as [H1 H2].
    apply of_symbol_true in H2. auto. }
  assert (Hfwd : forall x, In x t -> symbol x = SYMBOL ->
                           In x (filter (of_symbol SYMBOL) t)).
  { intros x H1 H2. apply filter_In. split; [assumption|].
    apply of_symbol_true, H2. }
  unfold verify. revert Hsel Hback Hfwd.
  generalize (filter (of_symbol SYMBOL) t). intros sel Hsel Hback Hfwd.
  destruct sel as [|r rest]; [destruct Hsel|].
  destruct (fold_min_spec (map ctime rest) (ctime r)) as (L1 & L2 & L3).
  destruct (fold_max_spec (map ctime rest) (ctime r)) as (U1 & U2 & U3).
  cbv zeta in *.
  do 3 eexists. split; [reflexivity|]. split; [reflexivity|].
  split; [simpl; lia|]. split; [|split].
  - intros x H1 H2. destruct (Hfwd x H1 H2) as [<-|Hx]; [lia|].
    split; [apply L2 | apply U2]; apply in_map, Hx.
  - destruct L3 as [L3|L3].
    + exists r. destruct (Hback r (or_introl eq_refl)). auto.
    + apply in_map_iff in L3. destruct L3 as (x & E & Hx).
      exists x. destruct (Hback x (or_intror Hx)). auto.
  - destruct U3 as [U3|U3].
    + exists r. destruct (Hback r (or_introl eq_refl)). auto.
    + apply in_map_iff in U3. destruct U3 as (x & E & Hx).
      exists x. destruct (Hback x (or_intror Hx)). auto.
Qed.

(* ------------------------------------------------------------------ *)
(** * The script as a whole *)

Lemma main_final_db (env : Env) (db : Table) :
  final_db (main env db)
  = match fetch_candles (yf_download env) with
    | Return df =>
        db_after (load_to_db (load_connect_ok env) (execute_raises env) df db)
    | _ => db
    end.
Proof.
  unfold main. destruct (fetch_candles (yf_download env)); try reflexivity.
  destruct (result (load_to_db _ _ _ _)); try reflexivity.
  destruct (verify _ _); reflexivity.
Qed.

Lemma main_status (env : Env) (db : Table) :
  status (main env db)
  = match fetch_candles (yf_download env) with
    | Return df =>
        if load_connect_ok env
        then if verify_connect_ok env then Return tt
             else Uncaught "psycopg2.OperationalError"
        else SysExit 1
    | SysExit c => SysExit c
    | Uncaught e => Uncaught e
    end.
Proof.
  unfold main. destruct (fetch_candles (yf_download env)) as [df| |];
    try reflexivity.
  destruct (load_connect_ok env); [|reflexivity].
  rewrite load_to_db_final. cbn [result].
  destruct (verify_connect_ok env); reflexivity.
Qed.

(* ------------------------------------------------------------------ *)
(** * C1: running the loader twice *)

(** C1 (amended): when no statement of the first run raised, a second run
    on the same frame returns inserted = 0 and skipped = number of rows,
    and leaves the table as it was. *)
Theorem C1_second_run_inserts_nothing
        (raises1 raises2 : nat -> bool) (df : DataFrame Z) (db : Table) :
  (forall k, k < len df -> raises1 k = false) ->
  let db1 := db_after (load_to_db true raises1 df db) in
  result (load_to_db true raises2 df db1) = Return (0, len df) /\
  db_after (load_to_db true raises2 df db1) = db1.
Proof.
  intros Hno db1.
  destruct (load_to_db_quiet raises1 df db Hno) as (Q & _ & E1).
  cbv zeta in E1. fold db1 in E1.
  assert (P : forall r, In r (rows df) -> present_in db1 r = true).
  { intros r Hr. rewrite E1. apply run_rows_all_present; assumption. }
  rewrite load_to_db_final. cbn [result db_after].
  destruct (final_noop raises2 (rows df) db1 P) as (D & I).
  destruct (final_boundary raises2 (rows df) db1) as (_ & _ & _ & C).
  rewrite D, I in *. split; [|reflexivity].
  unfold len. do 2 f_equal. lia.
Qed.

(* ------------------------------------------------------------------ *)
(** * C2: an empty download *)

(** C2: when the download is empty, fetch_candles leaves through
    sys.exit(1); the script ends with status 1, the table is what it was,
    and nothing at all was done on the database side. *)
Theorem C2_empty_fetch_exits_1 (env : Env) (db : Table) :
  empty (yf_download env) = true ->
  fetch_candles (yf_download env) = SysExit 1 /\
  status (main env db) = SysExit 1 /\
  exit_status (status (main env db)) = 1%Z /\
  final_db (main env db) = db /\
  trace (main env db) = [].
Proof.
  intro H. apply fetch_candles_empty in H.
  unfold main. rewrite H. auto.
Qed.

(* ------------------------------------------------------------------ *)
(** * C3: rows with a missing price *)

Lemma params_ohlc (r : Row Z) : ohlc_present (params r) = ohlc_notna r.
Proof. reflexivity. Qed.

Lemma fetched_ohlc (tz : option tzinfo) (r : Row float64) (r' : Row Z) :
  fetched tz r r' -> ohlc_notna r' = ohlc_notna r.
Proof.
  intros (_ & O & H & L & C & _). unfold ohlc_notna. now rewrite O, H, L, C.
Qed.

(** C3: every row of the frame fetch_candles returns has its four prices,
    and so has every row the script adds to the table. *)
Theorem C3_no_null_ohlc_persisted (env : Env) (db : Table) :
  (forall df, fetch_candles (yf_download env) = Return df ->
     forall r, In r (rows df) -> ohlc_notna r = true) /\
  (forall x, In x (final_db (main env db)) ->
     In x db \/ ohlc_present x = true).
Proof.
  assert (F : forall df, fetch_candles (yf_download env) = Return df ->
                forall r, In r (rows df) -> ohlc_notna r = true).
  { intros df Hf r Hr. apply fetch_candles_returns in Hf.
    destruct Hf as (_ & _ & P).
    destruct (paired_right _ _ _ P r Hr) as (r0 & Hr0 & Hf).
    rewrite (fetched_ohlc _ _ _ Hf). apply filter_In in Hr0. apply Hr0. }
  split; [exact F|].
  intros x Hx. rewrite main_final_db in Hx.
  destruct (fetch_candles (yf_download env)) as [df| |] eqn:E; auto.
  apply load_to_db_origin in Hx. destruct Hx as [Hx|(r & Hr & ->)]; auto.
  right. rewrite params_ohlc. apply (F df eq_refl r Hr).
Qed.

(* ------------------------------------------------------------------ *)
(** * C4: key uniqueness *)

(** C4: in every table that runs of the loader reach from a fresh one, no
    two rows share (symbol, candle_time). *)
Theorem C4_reachable_unique_keys (t : Table) :
  reachable t -> unique_keys t.
Proof.
  induction 1 as [|c raises df t _ IH].
  - constructor.
  - apply load_to_db_unique, IH.
Qed.

(* ------------------------------------------------------------------ *)
(** * C5: a statement that raises *)


(* ------------------------------------------------------------------ *)
(** * C6: the exit status *)

(** C6 (amended): the script ends with status 1 whenever the download is
    empty or a connect fails, that of load_to_db (both through
    sys.exit(1)) or that of verify (through its exception, which nothing
    catches); it ends with status 0 only in a run in which fetch_candles
    returned a frame and both connects succeeded; and the status is never
    anything but 0 or 1.  Nothing is said to end with status 0: other
    calls stand outside any try as well. *)
Theorem C6_exit_status (env : Env) (db : Table) :
  (empty (yf_download env) = true -> status (main env db) = SysExit 1) /\
  (load_connect_ok env = false -> exit_status (status (main env db)) = 1%Z) /\
  (verify_connect_ok env = false -> exit_status (status (main env db)) = 1%Z) /\
  (exit_status (status (main env db)) = 0%Z ->
     empty (yf_download env) = false /\
     (exists df, fetch_candles (yf_download env) = Return df) /\
     load_connect_ok env = true /\ verify_connect_ok env = true) /\
  (exit_status (status (main env db)) = 0%Z \/
   exit_status (status (main env db)) = 1%Z).
Proof.
  rewrite main_status.
  destruct (fetch_candles (yf_download env)) as [df|c|e] eqn:F.
  - apply fetch_candles_returns in F. destruct F as (Hne & _).
    rewrite Hne.
    destruct (load_connect_ok env), (verify_connect_ok env); cbn;
      repeat split; eauto; try discriminate.
  - apply fetch_candles_exit in F. destruct F as (He & ->). rewrite He.
    cbn. repeat split; auto; discriminate.
  - cbn. repeat split; auto; try discriminate.
    intro He. apply fetch_candles_empty in He. congruence.
Qed.

(* ------------------------------------------------------------------ *)
(** * C7: 500 candles, 10 of them known *)

(** C7 (amended): for 500 candles of which exactly 10 have keys already in
    the table, the other 490 having keys that differ from one another, and
    no statement raising, load_to_db reports inserted = 490 and
    skipped = 10.  Keys are compared as the table stores them. *)
Theorem C7_inserted_490_skipped_10
        (raises : nat -> bool) (df : DataFrame Z) (db : Table) :
  len df = 500 ->
  NoDup (map (fun r => pg_timestamp (candle_time r))
             (filter (absent_from db) (rows df))) ->
  count_present db (rows df) = 10 ->
  (forall k, k < 500 -> raises k = false) ->
  result (load_to_db true raises df db) = Return (490, 10).
Proof.
  intros Hlen Hnd Hten Hno.
  rewrite load_to_db_tally; [|rewrite Hlen; exact Hno|exact Hnd].
  rewrite Hlen, Hten. reflexivity.
Qed.

(* ------------------------------------------------------------------ *)
(** * C8: the order of the returned rows *)

(** C8 (amended): fetch_candles keeps the rows in the order of the
    download; when the download is ascending by timestamp, so is the frame
    it returns. *)
Theorem C8_ascending_when_download_is
        (dl : DataFrame float64) (df : DataFrame Z) :
  fetch_candles dl = Return df ->
  ascending (map candle_time (rows dl)) ->
  ascending (map candle_time (rows df)).
Proof.
  intros Hf Hasc. apply fetch_candles_returns in Hf. destruct Hf as (_ & _ & P).
  apply (ascending_fetched _ _ _ P). apply ascending_dropna, Hasc.
Qed.

(* ------------------------------------------------------------------ *)
(** * C9: naive UTC timestamps *)

(** C9: the frame fetch_candles returns has a naive time column, and each
    of its readings is the UTC instant of the downloaded timestamp it
    comes from: an aware column keeps its instants; a naive one is read as
    Asia/Kolkata wall clock, so that the returned instant, moved by the
    zone's offset at that instant, is the downloaded reading again. *)
Theorem C9_naive_utc (dl : DataFrame float64) (df : DataFrame Z) :
  fetch_candles dl = Return df ->
  let kept := filter ohlc_notna (rows dl) in
  dt_tz df = None /\
  Forall2 (fun r r' => provider_instant (dt_tz dl) (candle_time r)
                       = utc_of_local UTC (candle_time r')) kept (rows df) /\
  match dt_tz dl with
  | Some _ => map candle_time (rows df) = map candle_time kept
  | None =>
      Forall2 (fun r r' =>
                 utc_of_local kolkata (candle_time r) = Some (candle_time r') /\
                 (candle_time r' + utcoffset kolkata (candle_time r')
                  = candle_time r)%Z) kept (rows df)
  end.
Proof.
  intros Hf kept. apply fetch_candles_returns in Hf.
  destruct Hf as (_ & Htz & P). fold kept in P.
  split; [exact Htz|]. split.
  - eapply Forall2_impl; [|exact P]. intros r r' (T & _). exact T.
  - destruct (dt_tz dl) as [z|].
    + clear Htz. induction P as [|r r' l l' (T & _) _ IH]; [reflexivity|].
      cbn [map provider_instant] in *. injection T as T. now rewrite T, IH.
    + eapply Forall2_impl; [|exact P]. intros r r' (T & _).
      cbn [provider_instant] in T. split; [exact T|].
      apply (utc_of_local_wall kolkata _ _ T).
Qed.

(* ------------------------------------------------------------------ *)
(** * C10: the symbol of every written row *)

(** C10: the table after a run is the table before it followed by the rows
    the run added; each of them is the parameter tuple of a row of the
    frame and has symbol "NIFTY50".  The query of verify selects all of
    them and, beyond them, only what it selected before the run, so its
    count grows by their number; that number is at most the inserted
    counter, and equal to it when no statement raised. *)
Theorem C10_rows_carry_SYMBOL
        (c : bool) (raises : nat -> bool) (df : DataFrame Z) (db : Table) :
  let lr := load_to_db c raises df db in
  exists added,
    db_after lr = db ++ added /\
    Forall (fun x => symbol x = SYMBOL) added /\
    Forall (fun x => exists r, In r (rows df) /\ x = params r) added /\
    filter (of_symbol SYMBOL) (db_after lr)
    = filter (of_symbol SYMBOL) db ++ added /\
    (exists row, verify true (db_after lr) = Return row /\
                 candles_of row
                 = List.length (filter (of_symbol SYMBOL) db) + List.length added) /\
    (forall ins skp, result lr = Return (ins, skp) ->
       List.length added <= ins /\
       ((forall k, k < len df -> raises k = false) -> List.length added = ins)).
Proof.
  intro lr. subst lr. destruct c.
  - destruct (load_to_db_appended raises df db)
      as (added & ins & skp & R & D & L & _ & _ & S & O).
    exists added. rewrite D, R.
    assert (Fa : filter (of_symbol SYMBOL) (db ++ added)
                 = filter (of_symbol SYMBOL) db ++ added).
    { rewrite filter_app. f_equal. apply filter_all.
      eapply Forall_impl; [|exact S]. intros x Hx. apply of_symbol_true, Hx. }
    split; [reflexivity|]. split; [exact S|].
    split; [apply Forall_forall; exact O|]. split; [exact Fa|]. split.
    + destruct (verify_counts (db ++ added)) as (row & Hrow & Hc).
      exists row. split; [exact Hrow|]. now rewrite Hc, Fa, length_app.
    + intros ins' skp' [= <- <-]. split; [exact L|].
      intro Hno. destruct (load_to_db_quiet raises df db Hno) as (_ & R' & D').
      cbv zeta in R', D'.
      destruct (run_rows_appended raises (rows df) (start db))
        as (added' & Ev & El & _).
      cbn [start view inserted] in Ev, El. fold (start db) in Ev, El.
      rewrite R in R'. injection R' as -> _.
      rewrite D, Ev in D'. apply app_inv_head in D'. subst added'. lia.
  - exists []. rewrite load_to_db_refused. cbn [db_after result].
    rewrite !app_nil_r. repeat split; auto.
    + destruct (verify_counts db) as (row & Hrow & Hc).
      exists row. split; [exact Hrow|]. cbn. lia.
    + discriminate.
    + discriminate.
Qed.

(* ------------------------------------------------------------------ *)
(** * More on fetch_candles *)

(** X1: fetch_candles leaves through sys.exit, and then with code 1,
    exactly on an empty download.  It returns exactly when the download is
    not empty and, for every row with all four prices, the timestamp can
    be taken to UTC and the volume is not infinite; in every other case an
    exception escapes.  The returned frame has one row for each
    downloaded row with all four prices. *)
Theorem fetch_candles_exits_or_returns (dl : DataFrame float64) :
  (fetch_candles dl = SysExit 1 <-> empty dl = true) /\
  (forall c, fetch_candles dl = SysExit c -> c = 1%Z) /\
  ((exists df, fetch_candles dl = Return df) <->
   (empty dl = false /\
    forall r, In r (rows dl) -> ohlc_notna r = true ->
              provider_instant (dt_tz dl) (candle_time r) <> None /\
              isinf (volume r) = false)) /\
  (forall df, fetch_candles dl = Return df ->
              len df = List.length (filter ohlc_notna (rows dl)) /\
              len df <= len dl).
Proof.
  split; [|split; [|split]].
  - split; [intro H; apply (fetch_candles_exit _ _ H)|apply fetch_candles_empty].
  - intros c H. apply (fetch_candles_exit _ _ H).
  - split.
    + intros (df & H). apply fetch_candles_returns in H.
      destruct H as (Hne & _ & P). split; [exact Hne|].
      intros r Hr Hp.
      destruct (paired_left _ _ _ P r) as (r' & _ & T & _ & _ & _ & _ & I & _).
      { apply filter_In. auto. }
      split; [congruence|exact I].
    + intros (Hne & Hall). apply fetch_candles_returns_when; assumption.
  - intros df H. apply fetch_candles_returns in H. destruct H as (_ & _ & P).
    unfold len. rewrite (paired_length _ _ _ P).
    split; [reflexivity|apply filter_length_le].
Qed.

(** X2: the rows fetch_candles returns are the downloaded rows that have
    all four prices, in the same order: each has the UTC instant of its
    timestamp and the same four prices; a missing volume has become 0, and
    a volume that is there has lost its fraction, or has become the least
    64-bit integer when it does not fit in 64 bits. *)
Theorem fetch_candles_carries_rows_over
        (dl : DataFrame float64) (df : DataFrame Z) :
  fetch_candles dl = Return df ->
  Forall2 (fetched (dt_tz dl)) (filter ohlc_notna (rows dl)) (rows df).
Proof. intro H. apply (fetch_candles_returns _ _ H). Qed.


(** X4: the time conversion of fetch_candles merges no two rows: when the
    downloaded timestamps are pairwise distinct, so are the candle_time
    values it returns. *)
Theorem fetch_candles_keeps_times_apart
        (dl : DataFrame float64) (df : DataFrame Z) :
  fetch_candles dl = Return df ->
  NoDup (map candle_time (rows dl)) ->
  NoDup (map candle_time (rows df)) /\
  List.length (map candle_time (rows df))
  = List.length (filter ohlc_notna (rows dl)).
Proof.
  intros Hf Hnd. apply fetch_candles_returns in Hf. destruct Hf as (_ & _ & P).
  split.
  - apply (distinct_fetched _ _ _ P). apply dropna_times_distinct, Hnd.
  - rewrite length_map. apply (paired_length _ _ _ P).
Qed.

(* ------------------------------------------------------------------ *)
(** * More on load_to_db *)

(** X5: fetch, then load.  When the rows fetch_candles returned are stored
    under pairwise distinct times, the table holds no row of our symbol
    and no statement raises, load_to_db inserts every one of them and
    skips none; the count is the number of downloaded rows with all four
    prices. *)
Theorem fetch_then_load_inserts_all
        (dl : DataFrame float64) (df : DataFrame Z)
        (raises : nat -> bool) (db : Table) :
  fetch_candles dl = Return df ->
  NoDup (map (fun r => pg_timestamp (candle_time r)) (rows df)) ->
  (forall x, In x db -> symbol x <> SYMBOL) ->
  (forall k, k < len df -> raises k = false) ->
  result (load_to_db true raises df db)
  = Return (List.length (filter ohlc_notna (rows dl)), 0).
Proof.
  intros Hf Hnd Hdb Hno.
  destruct (count_present_foreign db (rows df) Hdb) as (C0 & A).
  rewrite load_to_db_tally; [|exact Hno|rewrite A; exact Hnd].
  rewrite C0, Nat.sub_0_r.
  apply fetch_candles_returns in Hf. destruct Hf as (_ & _ & P).
  unfold len. now rewrite (paired_length _ _ _ P).
Qed.


(** X7: ON CONFLICT DO NOTHING never overwrites.  The row stored under a
    key before a run is the row stored under it afterwards, whatever the
    frame holds for that key. *)
Theorem load_to_db_never_overwrites
        (c : bool) (raises : nat -> bool) (df : DataFrame Z) (db : Table)
        (k : string * Z) (x : DbRow) :
  lookup db k = Some x ->
  lookup (db_after (load_to_db c raises df db)) k = Some x.
Proof. apply load_to_db_keeps_lookup. Qed.

(** X8: the first row wins.  In a run with no raise, a key that the table
    did not hold is stored afterwards with the values of the first row of
    the frame that is stored under that time; later rows of the same
    stored time do not replace it. *)
Theorem load_to_db_first_row_wins
        (raises : nat -> bool) (df : DataFrame Z) (db : Table)
        (u : Z) (r : Row Z) :
  (forall k, k < len df -> raises k = false) ->
  lookup db (SYMBOL, u) = None ->
  first_at u (rows df) = Some r ->
  lookup (db_after (load_to_db true raises df db)) (SYMBOL, u) = Some (params r).
Proof.
  intros Hno Hnone Hfirst.
  destruct (load_to_db_quiet raises df db Hno) as (Q & _ & ->).
  apply run_rows_first_wins; assumption.
Qed.


(* ------------------------------------------------------------------ *)
(** * Commits and progress lines *)


(** X11: every progress line of a run tells the truth: its total is the
    number of rows of the frame, its done figure does not exceed it, and
    the inserted and skipped figures it shows add up to done. *)
Theorem load_to_db_progress_lines
        (raises : nat -> bool) (df : DataFrame Z) (db : Table) :
  Forall (progress_ok (len df)) (events (load_to_db true raises df db)).
Proof.
  rewrite load_to_db_final. cbn [events].
  apply Forall_app. split; [apply final_progress_ok|repeat constructor].
Qed.

(* ------------------------------------------------------------------ *)
(** * More on verify *)

(** X12: verify answers with no row exactly when the table has no row of
    our symbol.  Otherwise it answers with the symbol, the number of its
    rows, and the least and the greatest of their times: both are times of
    stored rows and every stored time of the symbol lies between them. *)
Theorem verify_reports_count_and_range (t : Table) :
  (verify true t = Return None <-> (forall x, In x t -> symbol x <> SYMBOL)) /\
  (forall s c lo hi,
     verify true t = Return (Some (s, c, lo, hi)) ->
     s = SYMBOL /\
     c = List.length (filter (of_symbol SYMBOL) t) /\ 1 <= c /\
     (forall x, In x t -> symbol x = SYMBOL -> (lo <= ctime x <= hi)%Z) /\
     (exists x, In x t /\ symbol x = SYMBOL /\ ctime x = lo) /\
     (exists x, In x t /\ symbol x = SYMBOL /\ ctime x = hi)).
Proof.
  split.
  - split.
    + intros H x Hx Hs.
      destruct (verify_range t x Hx Hs) as (c & lo & hi & E & _).
      rewrite E in H. discriminate H.
    + intro H. unfold verify. rewrite filter_none; [reflexivity|].
      intros x Hx. destruct (of_symbol SYMBOL x) eqn:E; [|reflexivity].
      apply of_symbol_true in E. elim (H x Hx E).
  - intros s c lo hi H.
    assert (Hex : exists x, In x t /\ symbol x = SYMBOL).
    { unfold verify in H.
      destruct (filter (of_symbol SYMBOL) t) as [|r rest] eqn:E; [discriminate H|].
      exists r. assert (Hr : In r (filter (of_symbol SYMBOL) t))
        by (rewrite E; left; reflexivity).
      apply filter_In in Hr. destruct Hr as [H1 H2].
      apply of_symbol_true in H2. auto. }
    destruct Hex as (x & Hx & Hs).
    destruct (verify_range t x Hx Hs) as (c' & lo' & hi' & E & R).
    rewrite E in H. injection H as <- <- <- <-. split; [reflexivity|exact R].
Qed.

(** X13: load, then verify.  After a run with no raise over a frame that
    has rows, verify finds rows of our symbol, and the time range it
    reports contains the stored time of every row of the frame. *)
Theorem load_then_verify_covers_frame
        (raises : nat -> bool) (df : DataFrame Z) (db : Table) :
  (forall k, k < len df -> raises k = false) ->
  rows df <> [] ->
  exists c lo hi,
    verify true (db_after (load_to_db true raises df db))
    = Return (Some (SYMBOL, c, lo, hi)) /\
    1 <= c /\
    forall r, In r (rows df) ->
              (lo <= pg_timestamp (candle_time r) <= hi)%Z.
Proof.
  intros Hno Hne.
  destruct (rows df) as [|r0 l] eqn:E; [contradiction|].
  assert (H0 : In r0 (rows df)) by (rewrite E; left; reflexivity).
  destruct (load_to_db_stores_keys raises df db r0 Hno H0) as (x & Hx & Hs & _).
  destruct (verify_range _ x Hx Hs) as (c & lo & hi & V & _ & Hc & Hb & _).
  exists c, lo, hi. split; [exact V|]. split; [exact Hc|].
  intros r Hr. rewrite <- E in Hr.
  destruct (load_to_db_stores_keys raises df db r Hno Hr) as (y & Hy & Hsy & <-).
  apply Hb; assumption.
Qed.

(** X14: fetch, then load.  In a run in which fetch_candles returns,
    load_to_db connects and no statement raises, every downloaded row with
    all four prices has a row in the table at the end of the script: our
    symbol, and the UTC instant of its timestamp as the TIMESTAMP column
    keeps it. *)
Theorem main_stores_every_priced_row
        (env : Env) (db : Table) (df : DataFrame Z) (r : Row float64) :
  fetch_candles (yf_download env) = Return df ->
  load_connect_ok env = true ->
  (forall k, execute_raises env k = false) ->
  In r (rows (yf_download env)) ->
  ohlc_notna r = true ->
  exists i x,
    provider_instant (dt_tz (yf_download env)) (candle_time r) = Some i /\
    In x (final_db (main env db)) /\
    symbol x = SYMBOL /\ ctime x = pg_timestamp i.
Proof.
  intros Hf Hc Hno Hr Hp.
  rewrite main_final_db, Hf, Hc.
  apply fetch_candles_returns in Hf. destruct Hf as (_ & _ & P).
  destruct (paired_left _ _ _ P r) as (r' & Hr' & T & _);
    [apply filter_In; auto|].
  destruct (load_to_db_stores_keys (execute_raises env) df db r'
              (fun k _ => Hno k) Hr') as (x & Hx & Hs & Ht).
  exists (candle_time r'), x. auto.
Qed.

End Script.

(* ------------------------------------------------------------------ *)
(** * The original statements that fail, at the samples *)

(** C1, as stated, fails: a row whose statement raised in the first run is
    not in the table afterwards, and the second run inserts it. *)
Lemma C1_second_run_can_insert :
  ~ (forall (raises1 raises2 : nat -> bool) (df : DataFrame Z) (db : Table),
        result (load_to_db nearest_us true raises2 df
                  (db_after (load_to_db nearest_us true raises1 df db)))
        = Return (0, len df)).
Proof.
  intro H. specialize (H always never (candles [0%Z]) []).
  vm_compute in H. discriminate H.
Qed.

Example second_run_after_a_raise :
  result (load_to_db nearest_us true always (candles [0%Z]) []) = Return (0, 1) /\
  db_after (load_to_db nearest_us true always (candles [0%Z]) []) = [] /\
  result (load_to_db nearest_us true never (candles [0%Z]) []) = Return (1, 0).
Proof. repeat split; reflexivity. Qed.

(** C6, as stated, fails: a run can pass the checks of fetch_candles and
    load_to_db and still end with status 1, when the connect inside verify
    raises. *)
Lemma C6_verify_connect_can_fail :
  ~ (forall (env : Env) (db : Table),
        exit_status (status (main nearest_us IST env db))
        = if empty (yf_download env) || negb (load_connect_ok env)
          then 1%Z else 0%Z).
Proof.
  intro H. specialize (H env_verify_down []).
  vm_compute in H. discriminate H.
Qed.

Example run_with_verify_down :
  status (main nearest_us IST env_verify_down [])
  = Uncaught "psycopg2.OperationalError" /\
  exit_status (status (main nearest_us IST env_verify_down [])) = 1%Z.
Proof. split; reflexivity. Qed.

(** A download with data, both connects in order, and status 1 all the
    same: the cast of line 90 raises on an infinite volume. *)
Example run_with_infinite_volume :
  empty (yf_download env_inf_volume) = false /\
  status (main nearest_us IST env_inf_volume []) = Uncaught "IntCastingNaNError" /\
  exit_status (status (main nearest_us IST env_inf_volume [])) = 1%Z.
Proof. repeat split; reflexivity. Qed.

(** C7, as stated, fails: two input rows may share a time that the table
    does not hold yet; the second of them is skipped although its key was
    not in the table when the run began. *)
Lemma C7_repeated_time_in_input :
  ~ (forall (raises : nat -> bool) (df : DataFrame Z) (db : Table),
        len df = 500 ->
        count_present nearest_us db (rows df) = 10 ->
        (forall k, k < 500 -> raises k = false) ->
        result (load_to_db nearest_us true raises df db) = Return (490, 10)).
Proof.
  intro H.
  specialize (H never frame_with_repeat table_10).
  assert (E : result (load_to_db nearest_us true never frame_with_repeat table_10)
              = Return (489, 11)) by (vm_compute; reflexivity).
  rewrite E in H.
  assert (A : Return (489, 11) = Return (490, 10) :> outcome (nat * nat)).
  { apply H; [vm_compute; reflexivity | vm_compute; reflexivity | reflexivity]. }
  injection A as A _. revert A. clear. lia.
Qed.

Example run_with_repeated_time :
  len frame_with_repeat = 500 /\
  count_present nearest_us table_10 (rows frame_with_repeat) = 10 /\
  result (load_to_db nearest_us true never frame_with_repeat table_10)
  = Return (489, 11).
Proof. repeat split; vm_compute; reflexivity. Qed.

(** A time that comes twice does no harm when the table holds it: ten rows
    have known keys, the other 490 have keys of their own. *)
Example run_with_known_repeat :
  len frame_with_known_repeat = 500 /\
  count_present nearest_us table_9 (rows frame_with_known_repeat) = 10 /\
  result (load_to_db nearest_us true never frame_with_known_repeat table_9)
  = Return (490, 10).
Proof. repeat split; vm_compute; reflexivity. Qed.

(** C8, as stated, fails: fetch_candles never sorts; a download whose rows
    come in another order is returned in that order. *)
Lemma C8_order_is_the_providers :
  ~ (forall (dl : DataFrame float64) (df : DataFrame Z),
        fetch_candles IST dl = Return df ->
        ascending (map candle_time (rows df))).
Proof.
  intro H.
  specialize (H frame_descending (candles [600%Z; 300%Z]) eq_refl).
  simpl in H. lia.
Qed.

Example fetch_of_descending :
  fetch_candles IST frame_descending = Return (candles [600%Z; 300%Z]).
Proof. reflexivity. Qed.

(** One rejected statement in the first batch of 501 rows: the row before
    it is counted as inserted, the 498 after it are rejected with it, the
    commit rolls the batch back, and the second batch goes through. *)
Example run_with_rollback :
  result (load_to_db nearest_us true second_raises frame_501 []) = Return (2, 499) /\
  db_after (load_to_db nearest_us true second_raises frame_501 []) = [stored 500].
Proof. split; vm_compute; reflexivity. Qed.

(** The same in small: three rows, the second rejected.  The first is
    counted as inserted and lost, the third is rejected with the second. *)
Example run_with_one_rejection :
  result (load_to_db nearest_us true second_raises (candles [0%Z; 1%Z; 2%Z]) [])
  = Return (1, 2) /\
  db_after (load_to_db nearest_us true second_raises (candles [0%Z; 1%Z; 2%Z]) [])
  = [].
Proof. split; reflexivity. Qed.

(* ------------------------------------------------------------------ *)
(** * The theorems at the samples *)

Lemma C1_second_run_inserts_nothing_witness :
  (forall k, k < len (candles [0%Z; 300%Z]) -> never k = false) /\
  result (load_to_db nearest_us true always (candles [0%Z; 300%Z])
            (db_after (load_to_db nearest_us true never (candles [0%Z; 300%Z]) [])))
  = Return (0, 2).
Proof.
  split; [reflexivity|].
  apply (C1_second_run_inserts_nothing nearest_us never always
           (candles [0%Z; 300%Z]) []).
  reflexivity.
Defined.

Lemma C2_empty_fetch_exits_1_witness :
  empty (yf_download env_no_data) = true /\
  exit_status (status (main nearest_us IST env_no_data table_10)) = 1%Z /\
  final_db (main nearest_us IST env_no_data table_10) = table_10.
Proof.
  split; [reflexivity|].
  pose proof (C2_empty_fetch_exits_1 nearest_us IST env_no_data table_10 eq_refl)
    as (_ & _ & E & F & _).
  split; [exact E | exact F].
Defined.

Lemma C3_no_null_ohlc_persisted_witness :
  fetch_candles IST frame_with_gap = Return (candles [0%Z; 600%Z]) /\
  In (candle 600) (rows (candles [0%Z; 600%Z])) /\
  ohlc_notna (candle 600) = true.
Proof.
  assert (E : fetch_candles IST frame_with_gap = Return (candles [0%Z; 600%Z]))
    by reflexivity.
  assert (I : In (candle 600) (rows (candles [0%Z; 600%Z])))
    by (right; left; reflexivity).
  split; [exact E|]. split; [exact I|].
  exact (proj1 (C3_no_null_ohlc_persisted nearest_us IST env_with_gap [])
               (candles [0%Z; 600%Z]) E (candle 600) I).
Defined.

Lemma C4_reachable_unique_keys_witness :
  reachable nearest_us
    (db_after (load_to_db nearest_us true never (candles [5%Z; 5%Z; 7%Z]) [])) /\
  unique_keys
    (db_after (load_to_db nearest_us true never (candles [5%Z; 5%Z; 7%Z]) [])).
Proof.
  split.
  - apply reach_load, reach_fresh.
  - apply (C4_reachable_unique_keys nearest_us). apply reach_load, reach_fresh.
Defined.



Lemma C6_exit_status_witness :
  verify_connect_ok env_verify_down = false /\
  exit_status (status (main nearest_us IST env_verify_down table_10)) = 1%Z.
Proof.
  split; [reflexivity|].
  exact (proj1 (proj2 (proj2 (C6_exit_status nearest_us IST env_verify_down table_10)))
               eq_refl).
Defined.

Lemma frame_500_new_keys :
  NoDup (map (fun r => nearest_us (candle_time r))
             (filter (absent_from nearest_us table_10) (rows frame_500))).
Proof.
  assert (E : map (fun r => nearest_us (candle_time r))
                  (filter (absent_from nearest_us table_10) (rows frame_500))
              = map Z.of_nat (seq 10 490)) by (vm_compute; reflexivity).
  rewrite E. apply Injective_map_NoDup; [|apply seq_NoDup].
  intros x y. apply Nat2Z.inj.
Defined.

Lemma C7_inserted_490_skipped_10_witness :
  len frame_500 = 500 /\
  NoDup (map (fun r => nearest_us (candle_time r))
             (filter (absent_from nearest_us table_10) (rows frame_500))) /\
  count_present nearest_us table_10 (rows frame_500) = 10 /\
  (forall k, k < 500 -> never k = false) /\
  result (load_to_db nearest_us true never frame_500 table_10) = Return (490, 10).
Proof.
  assert (L : len frame_500 = 500) by (vm_compute; reflexivity).
  assert (P : count_present nearest_us table_10 (rows frame_500) = 10)
    by (vm_compute; reflexivity).
  assert (N : forall k, k < 500 -> never k = false) by reflexivity.
  split; [exact L|]. split; [exact frame_500_new_keys|].
  split; [exact P|]. split; [exact N|].
  exact (C7_inserted_490_skipped_10 nearest_us never frame_500 table_10
           L frame_500_new_keys P N).
Defined.

Lemma C8_ascending_when_download_is_witness :
  fetch_candles IST frame_with_gap = Return (candles [0%Z; 600%Z]) /\
  ascending (map candle_time (rows frame_with_gap)) /\
  ascending (map candle_time (rows (candles [0%Z; 600%Z]))).
Proof.
  assert (A : ascending (map candle_time (rows frame_with_gap)))
    by (simpl; lia).
  split; [reflexivity|]. split; [exact A|].
  exact (C8_ascending_when_download_is IST frame_with_gap (candles [0%Z; 600%Z])
           eq_refl A).
Defined.

Lemma C9_naive_utc_witness :
  fetch_candles IST frame_naive = Return (candles [0%Z; 300000000%Z]) /\
  dt_tz (candles [0%Z; 300000000%Z]) = None.
Proof.
  split; [reflexivity|].
  exact (proj1 (C9_naive_utc IST frame_naive (candles [0%Z; 300000000%Z]) eq_refl)).
Defined.

Lemma fetch_candles_carries_rows_over_witness :
  fetch_candles IST frame_with_gap = Return (candles [0%Z; 600%Z]) /\
  Forall2 (fetched IST (dt_tz frame_with_gap))
          (filter ohlc_notna (rows frame_with_gap))
          (rows (candles [0%Z; 600%Z])).
Proof.
  split; [reflexivity|].
  exact (fetch_candles_carries_rows_over IST frame_with_gap
           (candles [0%Z; 600%Z]) eq_refl).
Defined.


Lemma frame_naive_distinct : NoDup (map candle_time (rows frame_naive)).
Proof.
  simpl. constructor; [intros [H|[]]; discriminate H|].
  constructor; [intros []|constructor].
Defined.

Lemma fetch_candles_keeps_times_apart_witness :
  fetch_candles IST frame_naive = Return (candles [0%Z; 300000000%Z]) /\
  NoDup (map candle_time (rows frame_naive)) /\
  NoDup (map candle_time (rows (candles [0%Z; 300000000%Z]))).
Proof.
  split; [reflexivity|]. split; [exact frame_naive_distinct|].
  exact (proj1 (fetch_candles_keeps_times_apart IST frame_naive
                  (candles [0%Z; 300000000%Z]) eq_refl frame_naive_distinct)).
Defined.

Lemma fetched_naive_stored_apart :
  NoDup (map (fun r => nearest_us (candle_time r))
             (rows (candles [0%Z; 300000000%Z]))).
Proof.
  simpl. constructor; [intros [H|[]]; discriminate H|].
  constructor; [intros []|constructor].
Defined.

Lemma fetch_then_load_inserts_all_witness :
  fetch_candles IST frame_naive = Return (candles [0%Z; 300000000%Z]) /\
  (forall x, In x [foreign_row] -> symbol x <> SYMBOL) /\
  result (load_to_db nearest_us true never (candles [0%Z; 300000000%Z])
            [foreign_row])
  = Return (2, 0).
Proof.
  assert (A : forall x, In x [foreign_row] -> symbol x <> SYMBOL).
  { intros x [<-|[]]. discriminate. }
  split; [reflexivity|]. split; [exact A|].
  exact (fetch_then_load_inserts_all nearest_us IST frame_naive
           (candles [0%Z; 300000000%Z]) never [foreign_row]
           eq_refl fetched_naive_stored_apart A (fun k _ => eq_refl)).
Defined.

Lemma load_to_db_never_overwrites_witness :
  lookup [older_row] (SYMBOL, 300%Z) = Some older_row /\
  params nearest_us (candle 300) <> older_row /\
  lookup (db_after (load_to_db nearest_us true never (candles [0%Z; 300%Z])
                      [older_row]))
         (SYMBOL, 300%Z)
  = Some older_row.
Proof.
  split; [reflexivity|]. split; [discriminate|].
  exact (load_to_db_never_overwrites nearest_us true never (candles [0%Z; 300%Z])
           [older_row] (SYMBOL, 300%Z) older_row eq_refl).
Defined.

Lemma load_to_db_first_row_wins_witness :
  (forall k, k < len frame_two_at_300 -> never k = false) /\
  lookup [foreign_row] (SYMBOL, 300%Z) = None /\
  first_at nearest_us 300 (rows frame_two_at_300) = Some (candle 300) /\
  lookup (db_after (load_to_db nearest_us true never frame_two_at_300
                      [foreign_row]))
         (SYMBOL, 300%Z)
  = Some (params nearest_us (candle 300)).
Proof.
  split; [reflexivity|]. split; [reflexivity|]. split; [reflexivity|].
  exact (load_to_db_first_row_wins nearest_us never frame_two_at_300
           [foreign_row] 300%Z (candle 300) (fun k _ => eq_refl) eq_refl eq_refl).
Defined.


Lemma verify_reports_count_and_range_witness :
  verify true [foreign_row; older_row; stored 0]
  = Return (Some (SYMBOL, 2, 0%Z, 300%Z)) /\
  2 = List.length (filter (of_symbol SYMBOL) [foreign_row; older_row; stored 0]).
Proof.
  split; [reflexivity|].
  exact (proj1 (proj2 (proj2 (verify_reports_count_and_range
                                [foreign_row; older_row; stored 0])
                             SYMBOL 2 0%Z 300%Z eq_refl))).
Defined.

Lemma load_then_verify_covers_frame_witness :
  (forall k, k < len (candles [600%Z; 0%Z]) -> never k = false) /\
  rows (candles [600%Z; 0%Z]) <> [] /\
  exists c lo hi,
    verify true (db_after (load_to_db nearest_us true never (candles [600%Z; 0%Z])
                             [older_row]))
    = Return (Some (SYMBOL, c, lo, hi)) /\
    1 <= c /\
    forall r, In r (rows (candles [600%Z; 0%Z])) ->
              (lo <= nearest_us (candle_time r) <= hi)%Z.
Proof.
  assert (N : rows (candles [600%Z; 0%Z]) <> []) by discriminate.
  split; [reflexivity|]. split; [exact N|].
  exact (load_then_verify_covers_frame nearest_us never (candles [600%Z; 0%Z])
           [older_row] (fun k _ => eq_refl) N).
Defined.

Lemma main_stores_every_priced_row_witness :
  fetch_candles IST (yf_download env_naive)
  = Return (candles [0%Z; 300000000%Z]) /\
  In (raw_candle 19800000000) (rows (yf_download env_naive)) /\
  exists i x,
    provider_instant IST (dt_tz (yf_download env_naive))
                     (candle_time (raw_candle 19800000000)) = Some i /\
    In x (final_db (main nearest_us IST env_naive [foreign_row])) /\
    symbol x = SYMBOL /\ ctime x = nearest_us i.
Proof.
  assert (I : In (raw_candle 19800000000) (rows (yf_download env_naive)))
    by (left; reflexivity).
  split; [reflexivity|]. split; [exact I|].
  exact (main_stores_every_priced_row nearest_us IST env_naive [foreign_row]
           (candles [0%Z; 300000000%Z]) (raw_candle 19800000000)
           eq_refl eq_refl (fun k => eq_refl) I eq_refl).
Defined.
